(** * inStock-tracker: a shallow embedding of [main.py]

    The program probes a product page with a headless browser, compares the
    result with the status kept in a state file, e-mails on an
    out-of-stock -> in-stock transition and stores the new status.

    Everything outside the Python code (the browser, the SMTP relay, the
    file system's willingness to open, read and write, and what the [email]
    package makes of the values of a message) is an oracle of the [World]:
    each external call is answered by an [outcome], a value or a raised
    exception.  The exceptions are the instances of Python's
    [Exception], which is what every handler of [main.py] catches;
    [KeyboardInterrupt] and [SystemExit] are outside the model.  A
    computation threads the content of the state file and records every
    external call it makes.  [print] calls only write to stdout and are
    left out.  The file system is a POSIX one ([STATE_FILE] lies in
    [/tmp]). *)

From Stdlib Require Import String Ascii List ZArith Bool Lia.
Import ListNotations.
Open Scope string_scope.

(** ** Python strings

    A [string] is a sequence of characters, each character standing for the
    code point of the same number (U+0000 to U+00FF). *)

Definition code (c : ascii) : N := N_of_ascii c.

(** [str.isspace] on one character: the code points below 256 that Python
    treats as white space are TAB..CR, FS..US, SPACE, NEL and NBSP. *)
Definition isspace (c : ascii) : bool :=
  let n := code c in
  (((9 <=? n) && (n <=? 13)) || ((28 <=? n) && (n <=? 31))
   || (n =? 32) || (n =? 133) || (n =? 160))%N.

Fixpoint lstrip (s : string) : string :=
  match s with
  | EmptyString => EmptyString
  | String c r => if isspace c then lstrip r else s
  end.

Fixpoint rstrip (s : string) : string :=
  match s with
  | EmptyString => EmptyString
  | String c r =>
      match rstrip r with
      | EmptyString => if isspace c then EmptyString else String c EmptyString
      | r' => String c r'
      end
  end.

(** [s.strip()] *)
Definition strip (s : string) : string := rstrip (lstrip s).

Definition CR : ascii := ascii_of_N 13.
Definition LF : ascii := ascii_of_N 10.

(** Text-mode reading ([open(path, "r")], [newline=None]): universal
    newlines, every CR LF and every lone CR comes back as LF. *)
Fixpoint universal_newlines (s : string) : string :=
  match s with
  | EmptyString => EmptyString
  | String c r =>
      if Ascii.eqb c CR then
        match r with
        | String c' r' =>
            if Ascii.eqb c' LF then String LF (universal_newlines r')
            else String LF (universal_newlines r)
        | EmptyString => String LF EmptyString
        end
      else String c (universal_newlines r)
  end.

(** Python truthiness of a [str]. *)
Definition nonempty (s : string) : bool :=
  match s with EmptyString => false | String _ _ => true end.

(** The characters at which [str.splitlines] ends a line, among the code
    points below 256: LF, VT, FF, CR, FS, GS, RS and NEL. *)
Definition is_line_boundary (c : ascii) : bool :=
  let n := code c in
  (((10 <=? n) && (n <=? 13)) || ((28 <=? n) && (n <=? 30)) || (n =? 133))%N.

(** [len(s.splitlines()) > 1]: something follows the first line end of
    [s], a CR LF counting as one line end. *)
Fixpoint multiline (s : string) : bool :=
  match s with
  | EmptyString => false
  | String c r =>
      if is_line_boundary c then
        if Ascii.eqb c CR then
          match r with
          | String c' r' => if Ascii.eqb c' LF then nonempty r' else true
          | EmptyString => false
          end
        else nonempty r
      else multiline r
  end.

(** The two stable status labels. *)
Definition stable (s : string) : Prop := s = "in-stock" \/ s = "out-of-stock".

Definition stableb (s : string) : bool :=
  String.eqb s "in-stock" || String.eqb s "out-of-stock".

(** ** Exceptions and outcomes *)

(** The two classes the handlers of [main.py] tell apart; both derive from
    [Exception].  The argument is [str(e)]. *)
Inductive exn : Type :=
| PWTimeout (msg : string)
| PyException (msg : string).

Definition exn_str (e : exn) : string :=
  match e with PWTimeout m => m | PyException m => m end.

Inductive outcome (A : Type) : Type :=
| Ok (a : A)
| Raise (e : exn).
Arguments Ok {A} a.
Arguments Raise {A} e.

(** ** Configuration (module-level constants of [main.py]) *)

Record Config : Type := {
  PRODUCT_URL : string;
  PINCODE : string;
  SMTP_SERVER : string;
  SMTP_PORT : Z;
  SENDER_EMAIL : string;
  SENDER_PASSWORD : option string;
  RECIPIENT_EMAIL : string
}.

(** The values taken when the environment sets none of them. *)
Definition default_config : Config := {|
  PRODUCT_URL :=
    "https://shop.amul.com/en/product/amul-high-protein-buttermilk-200-ml-or-pack-of-30";
  PINCODE := "560060";
  SMTP_SERVER := "smtp.gmail.com";
  SMTP_PORT := 587;
  SENDER_EMAIL := "pranavkheny@gmail.com";
  SENDER_PASSWORD := None;
  RECIPIENT_EMAIL := "khenyaditya97@gmail.com"
|}.

Definition STATE_FILE : string := "/tmp/buttermilk_stock_status.txt".

(** ** External calls *)

Record EmailMessage : Type := {
  Subject : string;
  From : string;
  To : string;
  content : string
}.

(** Browser calls that return nothing.  [scoped] tells whether the pincode
    input was located inside [div.modal-dialog] or on the whole page. *)
Inductive action : Type :=
| StartPlaywright                     (* sync_playwright().__enter__ *)
| Launch                              (* p.chromium.launch(headless=True, ...) *)
| NewPage                             (* browser.new_page() *)
| Goto (url : string)                 (* page.goto(url, wait_until="networkidle") *)
| ClickCandidate (txt : string)       (* page.get_by_text(txt).first.click() *)
| WaitHeading (txt : string)          (* wait_for_selector(heading, timeout=5000) *)
| ClickLocation                       (* "get my location" button .first.click() *)
| WaitAfterLocation                   (* page.wait_for_timeout(1500) *)
| WaitGrace                           (* page.wait_for_timeout(500) *)
| InputWaitVisible (scoped : bool)    (* input_loc.wait_for(state="visible", timeout=10000) *)
| InputFill (scoped : bool) (pincode : string)
| InputPressEnter (scoped : bool)
| WaitNetworkIdle                     (* page.wait_for_load_state("networkidle") *)
| WaitSettle                          (* page.wait_for_timeout(1500) *)
| Screenshot (path : string)          (* page.screenshot(path=..., full_page=True) *)
| CloseBrowser                        (* browser.close() *)
| StopPlaywright.                     (* sync_playwright().__exit__ *)

(** Browser calls that return a [bool]. *)
Inductive bquery : Type :=
| HeadingVisible       (* text=/select delivery pincode/i  .first.is_visible() *)
| ModalVisible         (* div.modal-dialog  .first.is_visible() *)
| SoldOutVisible       (* div.alert.alert-danger.mt-3:has-text('Sold Out') .first.is_visible() *)
| AddToCartVisible     (* button:has-text('Add to Cart') .first.is_visible() *)
| AddToCartEnabled.    (* button:has-text('Add to Cart') .first.is_enabled() *)

(** Browser calls that return an [int] ([Locator.count()]). *)
Inductive cquery : Type :=
| CandidateCount (txt : string)   (* page.get_by_text(txt, exact=False).count() *)
| LocationCount                   (* get_by_role("button", name=/get my location/i).count() *)
| ModalCount                      (* page.locator("div.modal-dialog").count() *)
| AddToCartCount                  (* page.locator("button:has-text('Add to Cart')").first.count() *)
| UndeliverableCount.             (* get_by_text(/not deliverable|not available at/i).count() *)

Inductive smtp_step : Type :=
| Connect (host : string) (port : Z)                 (* smtplib.SMTP(host, port) *)
| StartTLS                                           (* server.starttls() *)
| Login (user : string) (password : option string)  (* server.login(user, password) *)
| SendMessage (msg : EmailMessage)                   (* server.send_message(msg) *)
| Quit.                                              (* SMTP.__exit__ *)

(** Operations on [STATE_FILE].  [WriteText] stands for [f.write(data)]
    together with the flush and close that end the [with] block, [ReadText]
    for [f.read()] and the close after it. *)
Inductive file_op : Type :=
| Exists                      (* os.path.exists(STATE_FILE) *)
| OpenRead                    (* open(STATE_FILE, "r") *)
| ReadText
| OpenWrite                   (* open(STATE_FILE, "w") *)
| WriteText (data : string).

Inductive call : Type :=
| CBrowser (a : action)
| CAsk (q : bquery)
| CCount (q : cquery)
| CSmtp (s : smtp_step)
| CFile (op : file_op).

(** The world outside the program: how each external call is answered.
    [email_pkg] is what the [email] package makes of the values of a
    message once the policy's line check let them through: the parsing of
    the subject and of the two addresses, the encoding of the body. *)
Record World : Type := {
  config : Config;
  browser_do : action -> outcome unit;
  browser_ask : bquery -> outcome bool;
  browser_count : cquery -> outcome Z;
  email_pkg : EmailMessage -> outcome unit;
  smtp : smtp_step -> outcome unit;
  fileio : file_op -> outcome unit
}.

(** ** Computations

    A computation starts from the content of the state file ([None]: the
    file does not exist) and ends in a [run]: the value returned or the
    exception raised, the content of the state file then, and the external
    calls made, in order.  A raised exception keeps the effects made before
    it. *)

Record run (A : Type) : Type := Run {
  res : outcome A;
  file : option string;
  trace : list call
}.
Arguments Run {A} res file trace.
Arguments res {A} r.
Arguments file {A} r.
Arguments trace {A} r.

Definition M (A : Type) : Type := option string -> run A.

Definition ret {A} (a : A) : M A := fun fs => Run (Ok a) fs [].

Definition bind {A B} (m : M A) (k : A -> M B) : M B := fun fs =>
  let r := m fs in
  match res r with
  | Ok a => let r' := k a (file r) in
            Run (res r') (file r') (trace r ++ trace r')
  | Raise e => Run (Raise e) (file r) (trace r)
  end.

(** [try: m  except Exception as e: h e] *)
Definition try_except {A} (m : M A) (h : exn -> M A) : M A := fun fs =>
  let r := m fs in
  match res r with
  | Ok a => r
  | Raise e => let r' := h e (file r) in
               Run (res r') (file r') (trace r ++ trace r')
  end.

(** [try: m  finally: fin]: [fin] always runs; an exception of [fin]
    replaces the result of [m], also a returned value. *)
Definition try_finally {A} (m : M A) (fin : M unit) : M A := fun fs =>
  let r := m fs in
  let r' := fin (file r) in
  Run (match res r' with Ok _ => res r | Raise e => Raise e end)
      (file r') (trace r ++ trace r').

Declare Scope py_scope.
Delimit Scope py_scope with py.
Notation "x <- m ;; k" := (bind m (fun x => k))
  (at level 100, m at next level, right associativity) : py_scope.
Notation "m ;; k" := (bind m (fun _ => k))
  (at level 100, right associativity) : py_scope.
Open Scope py_scope.

(** [with enter as _: body], for a context manager that does not swallow
    exceptions: [leave] (its [__exit__]) runs however [body] ends. *)
Definition with_ctx {A} (enter : M unit) (leave : M unit) (body : M A) : M A :=
  enter ;; try_finally body leave.

(** One external call, answered by the world. *)
Definition extern {A} (c : call) (answer : outcome A) : M A :=
  fun fs => Run answer fs [c].

(** A library call that touches nothing outside the process: it returns
    or raises and leaves no call behind. *)
Definition lift {A} (answer : outcome A) : M A :=
  fun fs => Run answer fs [].

(** ** The program *)

Section Program.

Variable w : World.

Definition do_ (a : action) : M unit := extern (CBrowser a) (browser_do w a).
Definition ask (q : bquery) : M bool := extern (CAsk q) (browser_ask w q).
Definition count (q : cquery) : M Z := extern (CCount q) (browser_count w q).
Definition smtp_do (s : smtp_step) : M unit := extern (CSmtp s) (smtp w s).

(** *** State file *)

(** [os.path.exists]: [False] as well when the [stat] call fails. *)
Definition os_path_exists : M bool := fun fs =>
  Run (Ok match fileio w Exists, fs with
          | Ok _, Some _ => true
          | _, _ => false
          end) fs [CFile Exists].

Definition open_read : M unit := fun fs =>
  Run match fs with
      | Some _ => fileio w OpenRead
      | None => Raise (PyException "[Errno 2] No such file or directory")
      end fs [CFile OpenRead].

Definition read_text : M string := fun fs =>
  Run match fileio w ReadText with
      | Ok _ => Ok (universal_newlines match fs with Some d => d | None => "" end)
      | Raise e => Raise e
      end fs [CFile ReadText].

(** Mode ["w"] creates the file or truncates it as soon as it is opened. *)
Definition open_write : M unit := fun fs =>
  match fileio w OpenWrite with
  | Ok _ => Run (Ok tt) (Some "") [CFile OpenWrite]
  | Raise e => Run (Raise e) fs [CFile OpenWrite]
  end.

(** On a POSIX system ["\n"] is written as it is. *)
Definition write_text (data : string) : M unit := fun fs =>
  match fileio w (WriteText data) with
  | Ok _ => Run (Ok tt) (Some data) [CFile (WriteText data)]
  | Raise e => Run (Raise e) fs [CFile (WriteText data)]
  end.

Definition save_state (status : string) : M unit :=
  try_except
    (open_write ;; write_text status)
    (fun _ => ret tt).

(** The [return] inside the [try] is the [Some] of the protected block;
    [None] falls through to the last line. *)
Definition load_state : M string :=
  r <- try_except
         (present <- os_path_exists ;;
          if present then
            open_read ;;
            data <- read_text ;;
            ret (Some (strip data))
          else ret None)
         (fun _ => ret None) ;;
  match r with
  | Some s => ret s
  | None => ret "out-of-stock"
  end.

(** *** Notifier *)

(** The values lines 29-35 give to the message. *)
Definition draft_message (product_name : string) : EmailMessage := {|
  Subject := "Stock Alert: " ++ product_name ++ " is back in stock!";
  From := SENDER_EMAIL (config w);
  To := RECIPIENT_EMAIL (config w);
  content :=
    "The product (" ++ product_name ++ ") is now in stock in Bangalore at: "
    ++ PRODUCT_URL (config w) ++ String LF (String LF
    "This is an automated notification. Please check the website to confirm.")
|}.

(** Lines 28-35, inside the [try]: [msg[name] = value] raises [ValueError]
    when the value has more than one line ([EmailPolicy.header_store_parse]);
    what else the package does with the values is the world's answer.  Which
    of the assignments raises first makes no difference to the caller: the
    handler treats every exception alike. *)
Definition compose_message (product_name : string) : outcome EmailMessage :=
  let msg := draft_message product_name in
  if multiline (Subject msg) || multiline (From msg) || multiline (To msg)
  then Raise (PyException
                "Header values may not contain linefeed or carriage return characters")
  else match email_pkg w msg with
       | Ok _ => Ok msg
       | Raise e => Raise e
       end.

Definition send_email_notification (product_name : string) : M unit :=
  try_except
    (msg <- lift (compose_message product_name) ;;
     with_ctx
       (smtp_do (Connect (SMTP_SERVER (config w)) (SMTP_PORT (config w))))
       (smtp_do Quit)
       (smtp_do StartTLS ;;
        smtp_do (Login (SENDER_EMAIL (config w)) (SENDER_PASSWORD (config w))) ;;
        smtp_do (SendMessage msg)))
    (fun _ => ret tt).

(** *** Prober *)

Definition candidates : list string :=
  ["Change Delivery Pincode"; "Change Pincode"; "Change Delivery Pin"; "Deliver to"].

(** The [for] loop of [_open_pincode_modal]: [true] when the function
    returned from inside the loop, [false] when the loop ran out. *)
Fixpoint try_candidates (cands : list string) : M bool :=
  match cands with
  | [] => ret false
  | txt :: rest =>
      n <- count (CandidateCount txt) ;;
      if (n >? 0)%Z then
        opened <- try_except
                    (do_ (ClickCandidate txt) ;;
                     do_ (WaitHeading txt) ;;
                     ret true)
                    (fun _ => ret false) ;;
        if opened then ret true else try_candidates rest
      else try_candidates rest
  end.

Definition _open_pincode_modal : M unit :=
  visible <- ask HeadingVisible ;;
  if visible then ret tt
  else
    opened <- try_candidates candidates ;;
    if opened then ret tt
    else
      n <- count LocationCount ;;
      (if (n >? 0)%Z then
         try_except
           (do_ ClickLocation ;; do_ WaitAfterLocation)
           (fun _ => ret tt)
       else ret tt) ;;
      do_ WaitGrace.

Definition _enter_pincode (pincode : string) : M unit :=
  n <- count ModalCount ;;
  scoped <- (if (n >? 0)%Z then ask ModalVisible else ret false) ;;
  do_ (InputWaitVisible scoped) ;;
  do_ (InputFill scoped pincode) ;;
  do_ (InputPressEnter scoped) ;;
  do_ WaitNetworkIdle ;;
  do_ WaitSettle.

(** Lines 112-132: the ordered heuristics. *)
Definition classify : M (option string) :=
  sold_out <- ask SoldOutVisible ;;
  if sold_out then ret (Some "out-of-stock")
  else
    n <- count AddToCartCount ;;
    visible <- (if (n >? 0)%Z then ask AddToCartVisible else ret false) ;;
    enabled <- (if visible then ask AddToCartEnabled else ret false) ;;
    if enabled then ret (Some "in-stock")
    else
      m <- count UndeliverableCount ;;
      if (m >? 0)%Z then ret (Some "out-of-stock")
      else ret (Some "out-of-stock").

(** Lines 103-110: everything before the classification. *)
Definition navigate (url : string) : M unit :=
  do_ (Goto url) ;;
  _open_pincode_modal ;;
  _enter_pincode (PINCODE (config w)).

(** The block protected by the inner [try]. *)
Definition page_flow (url : string) : M (option string) :=
  navigate url ;;
  classify.

Definition debug_screenshot : M unit :=
  try_except (do_ (Screenshot "/tmp/amul_debug.png")) (fun _ => ret tt).

Definition get_stock_status_playwright (url : string) : M (option string) :=
  try_except
    (with_ctx (do_ StartPlaywright) (do_ StopPlaywright)
       (do_ Launch ;;
        do_ NewPage ;;
        try_finally
          (try_except
             (page_flow url)
             (fun e =>
                match e with
                | PWTimeout _ => debug_screenshot ;; ret None
                | PyException _ => debug_screenshot ;; ret None
                end))
          (do_ CloseBrowser)))
    (fun _ => ret None).

(** *** Orchestrator *)

Definition success_message : string := "Function executed successfully.".

Definition failure_message (e : exn) : string :=
  "Function failed with an error: " ++ exn_str e.

(** The outermost [try ... except Exception as e: return f"..."]. *)
Definition top_level (body : M string) : M string :=
  try_except body (fun e => ret (failure_message e)).

(** The block protected by the outermost [try].  [if current_status:] is
    false for [None] and for the empty string. *)
Definition check_cycle : M string :=
  current_status <- get_stock_status_playwright (PRODUCT_URL (config w)) ;;
  match current_status with
  | Some current =>
      if nonempty current then
        last_status <- load_state ;;
        (if String.eqb last_status "out-of-stock" && String.eqb current "in-stock"
         then send_email_notification "Amul High Protein Buttermilk"
         else ret tt) ;;
        save_state current
      else ret tt
  | None => ret tt
  end ;;
  ret success_message.

Definition buttermilk_checker_v2_function : M string :=
  top_level check_cycle.

End Program.

(** ** Vocabulary of the properties *)

Definition is_browser_call (c : call) : bool :=
  match c with CBrowser _ | CAsk _ | CCount _ => true | _ => false end.

Definition is_smtp_call (c : call) : bool :=
  match c with CSmtp _ => true | _ => false end.

(** Calls that can change the state file. *)
Definition is_write_call (c : call) : bool :=
  match c with CFile OpenWrite | CFile (WriteText _) => true | _ => false end.

Definition is_read_call (c : call) : bool :=
  match c with CFile Exists | CFile OpenRead | CFile ReadText => true | _ => false end.

(** The notification fired: an SMTP session was attempted. *)
Definition notification_fired (t : list call) : bool := existsb is_smtp_call t.

(** The message is handed to the relay: [send_message] is called. *)
Definition is_send_call (c : call) : bool :=
  match c with CSmtp (SendMessage _) => true | _ => false end.

(** Every text handed to [f.write] satisfies [P]. *)
Definition written_texts (P : string -> Prop) (t : list call) : Prop :=
  forall data, In (CFile (WriteText data)) t -> P data.

(** The state file is absent or holds a stable label. *)
Definition state_wf (fs : option string) : Prop :=
  match fs with
  | None => True
  | Some s => stable s
  end.

Definition is_ok {A} (o : outcome A) : bool :=
  match o with Ok _ => true | Raise _ => false end.

(** The state file after one invocation in each of the worlds [ws], in
    order: the external scheduler triggers the check again and again. *)
Fixpoint invocations (ws : list World) (fs : option string) : option string :=
  match ws with
  | [] => fs
  | w :: rest => invocations rest (file (buttermilk_checker_v2_function w fs))
  end.

(** The file system lets [save_state data] through. *)
Definition writable (w : World) (data : string) : bool :=
  is_ok (fileio w OpenWrite) && is_ok (fileio w (WriteText data)).

(** The file system lets [load_state] through. *)
Definition readable (w : World) : bool :=
  is_ok (fileio w Exists) && is_ok (fileio w OpenRead) && is_ok (fileio w ReadText).

(** The write of this invocation is not cut short: when its probe returns
    a status and the state file opens for writing (and is truncated), the
    file also takes that status. *)
Definition write_not_cut_short (w : World) (fs : option string) : Prop :=
  forall cur,
    res (get_stock_status_playwright w (PRODUCT_URL (config w)) fs) = Ok (Some cur) ->
    is_ok (fileio w OpenWrite) = true ->
    is_ok (fileio w (WriteText cur)) = true.

(** The same for each invocation of a row, each starting from the state
    file that the one before left. *)
Fixpoint writes_not_cut_short (ws : list World) (fs : option string) : Prop :=
  match ws with
  | [] => True
  | w :: rest =>
      write_not_cut_short w fs
      /\ writes_not_cut_short rest (file (buttermilk_checker_v2_function w fs))
  end.

(** The message can be composed: no header value has more than one line
    and the [email] package takes the values. *)
Definition composable (w : World) (product_name : string) : bool :=
  is_ok (compose_message w product_name).

(** What [save_state data] leaves in the state file. *)
Definition saved (w : World) (data : string) (fs : option string) : option string :=
  if is_ok (fileio w OpenWrite)
  then if is_ok (fileio w (WriteText data)) then Some data else Some ""
  else fs.


Fixpoint last_char (c : ascii) (r : string) : ascii :=
  match r with
  | EmptyString => c
  | String c' r' => last_char c' r'
  end.

(** No leading and no trailing white space. *)
Definition no_outer_space (s : string) : Prop :=
  match s with
  | EmptyString => True
  | String c r => isspace c = false /\ isspace (last_char c r) = false
  end.

Fixpoint contains (c : ascii) (s : string) : bool :=
  match s with
  | EmptyString => false
  | String c' r => Ascii.eqb c' c || contains c r
  end.

(** What the classification looks at on the page. *)
Record PageState : Type := {
  sold_out_alert : bool;        (* a "Sold Out" alert is visible *)
  add_to_cart_buttons : Z;      (* buttons containing "Add to Cart" *)
  add_to_cart_visible : bool;
  add_to_cart_enabled : bool;
  undeliverable_texts : Z       (* texts matching /not deliverable|not available at/i *)
}.

(** The positive signal: a button that exists, is visible and is enabled. *)
Definition add_to_cart_signal (p : PageState) : bool :=
  (add_to_cart_buttons p >? 0)%Z && add_to_cart_visible p && add_to_cart_enabled p.

(** The browser answers as [p] says every query that the heuristics need,
    taken in their order and up to the first that matches.  A query that
    no heuristic gets to may be answered in any way, with an exception
    too: nothing past a visible alert, no visibility of a button that is
    not there, no enabledness of a button that is not visible, no count of
    undeliverable wording behind the positive signal. *)
Definition shows (w : World) (p : PageState) : Prop :=
  browser_ask w SoldOutVisible = Ok (sold_out_alert p)
  /\ (sold_out_alert p = false ->
      browser_count w AddToCartCount = Ok (add_to_cart_buttons p)
      /\ ((add_to_cart_buttons p >? 0)%Z = true ->
          browser_ask w AddToCartVisible = Ok (add_to_cart_visible p)
          /\ (add_to_cart_visible p = true ->
              browser_ask w AddToCartEnabled = Ok (add_to_cart_enabled p)))
      /\ (add_to_cart_signal p = false ->
          browser_count w UndeliverableCount = Ok (undeliverable_texts p))).

(** The ordered heuristics as the specification words them (4.1, step 5):
    a. a visible "Sold Out" alert: out-of-stock; b. else an "Add to Cart"
    button that exists, is visible and is enabled: in-stock; c. else
    undeliverable wording on the page: out-of-stock; d. else out-of-stock. *)
Definition spec_classification (p : PageState) : string :=
  if sold_out_alert p then "out-of-stock"
  else if add_to_cart_signal p then "in-stock"
  else if (undeliverable_texts p >? 0)%Z then "out-of-stock"
  else "out-of-stock".

(** The session reaches the classification and is closed without an
    exception escaping. *)
Definition session_ok (w : World) (url : string) (fs : option string) : Prop :=
  browser_do w StartPlaywright = Ok tt
  /\ browser_do w Launch = Ok tt
  /\ browser_do w NewPage = Ok tt
  /\ res (navigate w url fs) = Ok tt
  /\ browser_do w CloseBrowser = Ok tt
  /\ browser_do w StopPlaywright = Ok tt.

(** A computation leaves the state file alone and makes only calls in [T]. *)
Definition quiet {A} (T : call -> bool) (m : M A) : Prop :=
  forall fs, file (m fs) = fs /\ forallb T (trace (m fs)) = true.

(** Whatever a computation returns satisfies [P]. *)
Definition yields {A} (P : A -> Prop) (m : M A) : Prop :=
  forall fs a, res (m fs) = Ok a -> P a.

(** A computation never raises. *)
Definition total {A} (m : M A) : Prop :=
  forall fs, exists a, res (m fs) = Ok a.

Definition status_or_none (v : option string) : Prop :=
  v = Some "in-stock" \/ v = Some "out-of-stock" \/ v = None.

(** The browser answered the call with an exception. *)
Definition raised (w : World) (c : call) : bool :=
  match c with
  | CBrowser a => negb (is_ok (browser_do w a))
  | CAsk q => negb (is_ok (browser_ask w q))
  | CCount q => negb (is_ok (browser_count w q))
  | _ => false
  end.

(** The steps of [_open_pincode_modal] wrapped in a [try] whose handler is
    [pass]: the click on a modal trigger and the wait for the heading after
    it, the click on the location button and the wait after it. *)
Definition swallowed (c : call) : bool :=
  match c with
  | CBrowser (ClickCandidate _) | CBrowser (WaitHeading _)
  | CBrowser ClickLocation | CBrowser WaitAfterLocation => true
  | _ => false
  end.

(** An exception of a step that is not swallowed ends the computation:
    it raises. *)
Definition strict {A} (w : World) (m : M A) : Prop :=
  forall fs c, In c (trace (m fs)) -> raised w c = true -> swallowed c = false ->
               exists e, res (m fs) = Raise e.

(** ** Sample worlds *)

(** The page after the pincode was entered. *)
Definition page_answers (p : PageState) (q : bquery) : outcome bool :=
  Ok match q with
     | HeadingVisible => true
     | ModalVisible => true
     | SoldOutVisible => sold_out_alert p
     | AddToCartVisible => add_to_cart_visible p
     | AddToCartEnabled => add_to_cart_enabled p
     end.

Definition page_counts (p : PageState) (q : cquery) : outcome Z :=
  Ok match q with
     | CandidateCount _ => 0%Z
     | LocationCount => 0%Z
     | ModalCount => 1%Z
     | AddToCartCount => add_to_cart_buttons p
     | UndeliverableCount => undeliverable_texts p
     end.

(** A world in which every call succeeds and the page looks like [p]. *)
Definition world_showing (p : PageState) : World := {|
  config := default_config;
  browser_do := fun _ => Ok tt;
  browser_ask := page_answers p;
  browser_count := page_counts p;
  email_pkg := fun _ => Ok tt;
  smtp := fun _ => Ok tt;
  fileio := fun _ => Ok tt
|}.

Definition buyable_page : PageState := {|
  sold_out_alert := false;
  add_to_cart_buttons := 1;
  add_to_cart_visible := true;
  add_to_cart_enabled := true;
  undeliverable_texts := 0
|}.

Definition sold_out_page : PageState := {|
  sold_out_alert := true;
  add_to_cart_buttons := 1;
  add_to_cart_visible := true;
  add_to_cart_enabled := false;
  undeliverable_texts := 0
|}.

(** No alert, no button, no undeliverable wording. *)
Definition blank_page : PageState := {|
  sold_out_alert := false;
  add_to_cart_buttons := 0;
  add_to_cart_visible := false;
  add_to_cart_enabled := false;
  undeliverable_texts := 0
|}.

Definition with_fileio (f : file_op -> outcome unit) (w : World) : World := {|
  config := config w;
  browser_do := browser_do w;
  browser_ask := browser_ask w;
  browser_count := browser_count w;
  email_pkg := email_pkg w;
  smtp := smtp w;
  fileio := f
|}.

Definition with_smtp (f : smtp_step -> outcome unit) (w : World) : World := {|
  config := config w;
  browser_do := browser_do w;
  browser_ask := browser_ask w;
  browser_count := browser_count w;
  email_pkg := email_pkg w;
  smtp := f;
  fileio := fileio w
|}.

Definition with_browser_do (f : action -> outcome unit) (w : World) : World := {|
  config := config w;
  browser_do := f;
  browser_ask := browser_ask w;
  browser_count := browser_count w;
  email_pkg := email_pkg w;
  smtp := smtp w;
  fileio := fileio w
|}.

Definition buyable_world : World := world_showing buyable_page.
Definition sold_out_world : World := world_showing sold_out_page.

(** [open(STATE_FILE, "w")] is refused. *)
Definition read_only_fs (op : file_op) : outcome unit :=
  match op with
  | OpenWrite => Raise (PyException "[Errno 13] Permission denied")
  | _ => Ok tt
  end.

(** The file opens for writing, the write itself fails. *)
Definition full_disk_fs (op : file_op) : outcome unit :=
  match op with
  | WriteText _ => Raise (PyException "[Errno 28] No space left on device")
  | _ => Ok tt
  end.

(** The file cannot be opened for reading. *)
Definition unreadable_fs (op : file_op) : outcome unit :=
  match op with
  | OpenRead => Raise (PyException "[Errno 13] Permission denied")
  | _ => Ok tt
  end.

(** The relay refuses the login. *)
Definition rejecting_smtp (s : smtp_step) : outcome unit :=
  match s with
  | Login _ _ => Raise (PyException "(535, b'5.7.8 Username and Password not accepted')")
  | _ => Ok tt
  end.

(** Navigation runs into its time limit. *)
Definition stalling_browser (a : action) : outcome unit :=
  match a with
  | Goto _ => Raise (PWTimeout "Timeout 30000ms exceeded.")
  | _ => Ok tt
  end.

(** The modal is closed, every trigger label is on the page and can be
    clicked, but the heading never shows within the 5 s of the bounded
    wait; the page itself offers the product. *)
Definition stuck_trigger_world : World := {|
  config := default_config;
  browser_do := fun a =>
    match a with
    | WaitHeading _ => Raise (PWTimeout "Timeout 5000ms exceeded.")
    | _ => Ok tt
    end;
  browser_ask := fun q =>
    match q with
    | HeadingVisible => Ok false
    | _ => page_answers buyable_page q
    end;
  browser_count := fun q =>
    match q with
    | CandidateCount _ => Ok 1%Z
    | _ => page_counts buyable_page q
    end;
  email_pkg := fun _ => Ok tt;
  smtp := fun _ => Ok tt;
  fileio := fun _ => Ok tt
|}.

(** Every signal at once: the alert, a button that can be pressed, and
    undeliverable wording. *)
Definition mixed_page : PageState := {|
  sold_out_alert := true;
  add_to_cart_buttons := 1;
  add_to_cart_visible := true;
  add_to_cart_enabled := true;
  undeliverable_texts := 2
|}.

(** A button that can be pressed next to undeliverable wording. *)
Definition button_and_wording_page : PageState := {|
  sold_out_alert := false;
  add_to_cart_buttons := 1;
  add_to_cart_visible := true;
  add_to_cart_enabled := true;
  undeliverable_texts := 2
|}.

(** No alert, no button, undeliverable wording. *)
Definition undeliverable_page : PageState := {|
  sold_out_alert := false;
  add_to_cart_buttons := 0;
  add_to_cart_visible := false;
  add_to_cart_enabled := false;
  undeliverable_texts := 1
|}.

(** A page without an "Add to Cart" button and with undeliverable wording,
    as the browser really answers for it: [is_visible] says no, and
    [is_enabled] would wait for a button and run into its time limit. *)
Definition no_button_world : World := {|
  config := default_config;
  browser_do := fun _ => Ok tt;
  browser_ask := fun q =>
    match q with
    | AddToCartEnabled => Raise (PWTimeout "Timeout 30000ms exceeded.")
    | _ => page_answers undeliverable_page q
    end;
  browser_count := page_counts undeliverable_page;
  email_pkg := fun _ => Ok tt;
  smtp := fun _ => Ok tt;
  fileio := fun _ => Ok tt
|}.

(** The file takes a text of up to eight characters. *)
Definition small_quota_fs (op : file_op) : outcome unit :=
  match op with
  | WriteText data =>
      if (String.length data <=? 8)%nat then Ok tt
      else Raise (PyException "[Errno 122] Disk quota exceeded")
  | _ => Ok tt
  end.




(** A status with a carriage return inside. *)
Definition cr_inside : string := String "a" (String CR (String "b" EmptyString)).

(** ** The HTTP front end ([serve.py]) *)

(** The values of the dictionaries the handlers build. *)
Inductive jvalue : Type :=
| JBool (b : bool)
| JString (s : string).

(** A JSON object with one level of keys, in order. *)
Inductive json : Type :=
| JObject (fields : list (string * jvalue)).

(** [jsonify(dict)]: the body of a 200 response. *)
Definition jsonify (fields : list (string * jvalue)) : json := JObject fields.

Definition health : M json :=
  ret (jsonify [("ok", JBool true)]).

(** The handler passes [None] for the request, which the function never
    looks at. *)
Definition check (w : World) : M json :=
  result <- buttermilk_checker_v2_function w ;;
  ret (jsonify [("status", JString result)]).

Definition root : M json :=
  ret (jsonify
         [("message",
           JString "OK. Use /check to run the stock checker, /health for liveness.")]).

(** ** More vocabulary *)

(** How many calls of a trace satisfy [T]. *)
Definition count_calls (T : call -> bool) (t : list call) : nat :=
  List.length (filter T t).

(** The browser calls of the page flow: everything but the session's own
    start, launch, page, screenshot, close and stop. *)
Definition is_page_call (c : call) : bool :=
  match c with
  | CBrowser StartPlaywright | CBrowser Launch | CBrowser NewPage
  | CBrowser (Screenshot _) | CBrowser CloseBrowser | CBrowser StopPlaywright => false
  | CBrowser _ | CAsk _ | CCount _ => true
  | _ => false
  end.

Definition is_quit_call (c : call) : bool :=
  match c with CSmtp Quit => true | _ => false end.

Definition is_close_call (c : call) : bool :=
  match c with CBrowser CloseBrowser => true | _ => false end.

Definition is_stop_call (c : call) : bool :=
  match c with CBrowser StopPlaywright => true | _ => false end.

Definition is_screenshot_call (c : call) : bool :=
  match c with CBrowser (Screenshot _) => true | _ => false end.

(** Every character of the string is white space. *)
Fixpoint all_space (s : string) : bool :=
  match s with
  | EmptyString => true
  | String c r => isspace c && all_space r
  end.

(** The same world, with [n] texts of undeliverable wording on the page. *)
Definition with_undeliverable (n : Z) (w : World) : World := {|
  config := config w;
  browser_do := browser_do w;
  browser_ask := browser_ask w;
  browser_count := fun q =>
    match q with
    | UndeliverableCount => Ok n
    | _ => browser_count w q
    end;
  email_pkg := email_pkg w;
  smtp := smtp w;
  fileio := fileio w
|}.

(** A trigger that does not open the modal: it is not on the page, or the
    click on it or the wait for the heading after it raises. *)
Definition trigger_fails (w : World) (txt : string) : Prop :=
  exists n, browser_count w (CandidateCount txt) = Ok n
            /\ ((n <= 0)%Z
                \/ is_ok (browser_do w (ClickCandidate txt)) = false
                \/ is_ok (browser_do w (WaitHeading txt)) = false).

(** The modal is open and holds the pincode input. *)
Definition modal_scope (w : World) : bool :=
  match browser_count w ModalCount with
  | Ok n => (n >? 0)%Z && match browser_ask w ModalVisible with
                          | Ok b => b
                          | Raise _ => false
                          end
  | Raise _ => false
  end.

(** The page has the modal closed and one trigger that opens it. *)
Definition one_trigger_world : World := {|
  config := default_config;
  browser_do := fun _ => Ok tt;
  browser_ask := fun q =>
    match q with
    | HeadingVisible => Ok false
    | _ => page_answers buyable_page q
    end;
  browser_count := fun q =>
    match q with
    | CandidateCount txt => Ok (if String.eqb txt "Change Pincode" then 1 else 0)%Z
    | _ => page_counts buyable_page q
    end;
  email_pkg := fun _ => Ok tt;
  smtp := fun _ => Ok tt;
  fileio := fun _ => Ok tt
|}.

(** The modal is closed, no trigger is on the page, the location button
    is. *)
Definition location_world : World := {|
  config := default_config;
  browser_do := fun _ => Ok tt;
  browser_ask := fun q =>
    match q with
    | HeadingVisible => Ok false
    | _ => page_answers buyable_page q
    end;
  browser_count := fun q =>
    match q with
    | LocationCount => Ok 1%Z
    | _ => page_counts buyable_page q
    end;
  email_pkg := fun _ => Ok tt;
  smtp := fun _ => Ok tt;
  fileio := fun _ => Ok tt
|}.

(** A state file as an editor leaves it: blanks before the label, a line
    end after it. *)
Definition padded_label : string :=
  "  in-stock" ++ String CR (String LF EmptyString).

(** The text does not start with a line feed. *)
Definition no_lf_first (t : string) : Prop :=
  match t with
  | EmptyString => True
  | String c _ => Ascii.eqb c LF = false
  end.

(** The call goes to the given address, or types the given text, or is
    neither a navigation nor a typing. *)
Definition on_target (url pin : string) (c : call) : bool :=
  match c with
  | CBrowser (Goto u) => String.eqb u url
  | CBrowser (InputFill _ p) => String.eqb p pin
  | _ => true
  end.

(** The computation does not look at the state file: its result and its
    calls are the same whatever the file holds. *)
Definition oblivious {A} (m : M A) : Prop :=
  forall fs fs', res (m fs) = res (m fs') /\ trace (m fs) = trace (m fs').

(** * Properties *)

(** ** Strings *)

Lemma rstrip_fixed (r : string) :
  forall c, isspace (last_char c r) = false -> rstrip (String c r) = String c r.
Proof.
  induction r as [|c' r' IH]; intros c H.
  - simpl in *. now rewrite H.
  - change (rstrip (String c (String c' r')))
      with (match rstrip (String c' r') with
            | EmptyString => if isspace c then EmptyString else String c EmptyString
            | r'' => String c r''
            end).
    now rewrite (IH c' H).
Qed.

Lemma strip_fixed (s : string) : no_outer_space s -> strip s = s.
Proof.
  destruct s as [|c r]; [reflexivity|].
  intros [Hfirst Hlast]. unfold strip.
  replace (lstrip (String c r)) with (String c r) by (simpl; now rewrite Hfirst).
  now apply rstrip_fixed.
Qed.

Lemma universal_newlines_fixed (s : string) :
  contains CR s = false -> universal_newlines s = s.
Proof.
  induction s as [|c r IH]; [reflexivity|].
  simpl. intros H. apply orb_false_iff in H as [Hc Hr].
  rewrite Hc. now rewrite (IH Hr).
Qed.

Lemma stable_stableb (s : string) : stable s <-> stableb s = true.
Proof.
  unfold stable, stableb. rewrite orb_true_iff, !String.eqb_eq. tauto.
Qed.

Lemma stable_nonempty (s : string) : stable s -> nonempty s = true.
Proof. now intros [-> | ->]. Qed.

Lemma stable_read_back (s : string) : stable s -> strip (universal_newlines s) = s.
Proof. now intros [-> | ->]. Qed.

(** ** Runs of the combinators *)

Lemma bind_res_inv {A B} (m : M A) (k : A -> M B) fs b :
  res (bind m k fs) = Ok b ->
  exists a, res (m fs) = Ok a /\ res (k a (file (m fs))) = Ok b.
Proof.
  unfold bind. destruct (res (m fs)) as [a|e]; cbn [res]; [|discriminate].
  intros H. now exists a.
Qed.

Lemma bind_Ok {A B} (m : M A) (k : A -> M B) fs a :
  res (m fs) = Ok a ->
  bind m k fs =
    Run (res (k a (file (m fs)))) (file (k a (file (m fs))))
        (trace (m fs) ++ trace (k a (file (m fs)))).
Proof. unfold bind. now intros ->. Qed.

Lemma bind_Raise {A B} (m : M A) (k : A -> M B) fs e :
  res (m fs) = Raise e ->
  bind m k fs = Run (Raise e) (file (m fs)) (trace (m fs)).
Proof. unfold bind. now intros ->. Qed.

Lemma try_except_Ok {A} (m : M A) (h : exn -> M A) fs a :
  res (m fs) = Ok a -> try_except m h fs = m fs.
Proof. unfold try_except. now intros ->. Qed.

Lemma try_except_Raise {A} (m : M A) (h : exn -> M A) fs e :
  res (m fs) = Raise e ->
  try_except m h fs =
    Run (res (h e (file (m fs)))) (file (h e (file (m fs))))
        (trace (m fs) ++ trace (h e (file (m fs)))).
Proof. unfold try_except. now intros ->. Qed.

(** A handler that returns a constant makes the block total. *)
Lemma try_except_const {A} (m : M A) (v : A) fs :
  res (try_except m (fun _ => ret v) fs) =
    Ok match res (m fs) with Ok a => a | Raise _ => v end.
Proof. unfold try_except. now destruct (res (m fs)) eqn:E. Qed.

Lemma trace_bind_prefix {A B} (m : M A) (k : A -> M B) fs :
  exists l, trace (bind m k fs) = (trace (m fs) ++ l)%list.
Proof.
  unfold bind. destruct (res (m fs)); simpl.
  - now eexists.
  - exists []. now rewrite app_nil_r.
Qed.

Lemma trace_try_except_prefix {A} (m : M A) (h : exn -> M A) fs :
  exists l, trace (try_except m h fs) = (trace (m fs) ++ l)%list.
Proof.
  unfold try_except. destruct (res (m fs)); simpl.
  - exists []. now rewrite app_nil_r.
  - now eexists.
Qed.

(** *** [quiet] *)

Lemma quiet_ret {A} T (a : A) : quiet T (ret a).
Proof. now split. Qed.

Lemma quiet_extern {A} (T : call -> bool) c (o : outcome A) :
  T c = true -> quiet T (extern c o).
Proof. intros H fs. simpl. now rewrite H. Qed.

Lemma quiet_lift {A} (T : call -> bool) (o : outcome A) : quiet T (lift o).
Proof. now split. Qed.

Lemma quiet_bind {A B} T (m : M A) (k : A -> M B) :
  quiet T m -> (forall a, quiet T (k a)) -> quiet T (bind m k).
Proof.
  intros Hm Hk fs. destruct (Hm fs) as [Hf Ht]. unfold bind.
  destruct (res (m fs)) as [a|e]; simpl.
  - destruct (Hk a (file (m fs))) as [Hf' Ht'].
    rewrite forallb_app, Ht, Ht', Hf', Hf. now split.
  - now split.
Qed.

Lemma quiet_try_except {A} T (m : M A) (h : exn -> M A) :
  quiet T m -> (forall e, quiet T (h e)) -> quiet T (try_except m h).
Proof.
  intros Hm Hh fs. destruct (Hm fs) as [Hf Ht]. unfold try_except.
  destruct (res (m fs)) as [a|e]; simpl.
  - now split.
  - destruct (Hh e (file (m fs))) as [Hf' Ht'].
    rewrite forallb_app, Ht, Ht', Hf', Hf. now split.
Qed.

Lemma quiet_try_finally {A} T (m : M A) (fin : M unit) :
  quiet T m -> quiet T fin -> quiet T (try_finally m fin).
Proof.
  intros Hm Hfin fs. destruct (Hm fs) as [Hf Ht].
  destruct (Hfin (file (m fs))) as [Hf' Ht']. unfold try_finally. simpl.
  rewrite forallb_app, Ht, Ht', Hf', Hf. now split.
Qed.

Lemma quiet_with_ctx {A} T (enter leave : M unit) (body : M A) :
  quiet T enter -> quiet T leave -> quiet T body ->
  quiet T (with_ctx enter leave body).
Proof.
  intros He Hl Hb. apply quiet_bind; [exact He|intros _].
  now apply quiet_try_finally.
Qed.

(** *** [yields] *)

Lemma yields_ret {A} (P : A -> Prop) a : P a -> yields P (ret a).
Proof. intros H fs a' [= <-]. exact H. Qed.

Lemma yields_bind {A B} (P : B -> Prop) (m : M A) (k : A -> M B) :
  (forall a, yields P (k a)) -> yields P (bind m k).
Proof.
  intros Hk fs b. unfold bind.
  destruct (res (m fs)) as [a|e] eqn:E; simpl; [apply Hk|discriminate].
Qed.

Lemma yields_try_except {A} (P : A -> Prop) (m : M A) (h : exn -> M A) :
  yields P m -> (forall e, yields P (h e)) -> yields P (try_except m h).
Proof.
  intros Hm Hh fs a. unfold try_except.
  destruct (res (m fs)) as [a'|e] eqn:E; simpl.
  - rewrite E. intros [= <-]. now apply (Hm fs).
  - apply Hh.
Qed.

Lemma yields_try_finally {A} (P : A -> Prop) (m : M A) (fin : M unit) :
  yields P m -> yields P (try_finally m fin).
Proof.
  intros Hm fs a. unfold try_finally. simpl.
  destruct (res (fin (file (m fs)))); [apply Hm|discriminate].
Qed.

Create HintDb py.
#[local] Hint Resolve quiet_ret quiet_bind quiet_try_except quiet_try_finally
  quiet_with_ctx : py.
#[local] Hint Resolve yields_ret yields_bind yields_try_except
  yields_try_finally : py.

(** One step of a structural argument over a computation. *)
Ltac py_step :=
  match goal with
  | |- forall _, _ => intro
  | |- quiet _ (ret _) => apply quiet_ret
  | |- quiet _ (extern _ _) => apply quiet_extern; reflexivity
  | |- quiet _ (lift _) => apply quiet_lift
  | |- quiet _ (bind _ _) => apply quiet_bind
  | |- quiet _ (try_except _ _) => apply quiet_try_except
  | |- quiet _ (try_finally _ _) => apply quiet_try_finally
  | |- quiet _ (with_ctx _ _ _) => apply quiet_with_ctx
  | |- quiet _ (if ?b then _ else _) => destruct b
  | |- quiet _ (match ?e with _ => _ end) => destruct e
  | |- yields _ (bind _ _) => apply yields_bind
  | |- yields _ (try_except _ _) => apply yields_try_except
  | |- yields _ (try_finally _ _) => apply yields_try_finally
  | |- yields _ (if ?b then _ else _) => destruct b
  | |- yields _ (match ?e with _ => _ end) => destruct e
  | |- _ => solve [auto with py]
  end.

Ltac py_struct := repeat py_step.

(** ** The prober *)

Section Prober.

Variable w : World.

Lemma try_candidates_quiet (cands : list string) :
  quiet is_browser_call (try_candidates w cands).
Proof.
  induction cands as [|txt rest IH]; simpl.
  - apply quiet_ret.
  - unfold count, do_. py_struct.
Qed.

Lemma navigate_quiet (url : string) : quiet is_browser_call (navigate w url).
Proof.
  pose proof try_candidates_quiet.
  unfold navigate, _open_pincode_modal, _enter_pincode, ask, count, do_.
  py_struct.
Qed.

Lemma classify_quiet : quiet is_browser_call (classify w).
Proof. unfold classify, ask, count. py_struct. Qed.

Lemma classify_yields : yields (fun v => exists s, v = Some s /\ stable s) (classify w).
Proof.
  unfold classify, stable. py_struct; apply yields_ret; eauto.
Qed.

Lemma page_flow_quiet (url : string) : quiet is_browser_call (page_flow w url).
Proof.
  pose proof navigate_quiet. pose proof classify_quiet.
  unfold page_flow. py_struct.
Qed.

Lemma page_flow_yields (url : string) :
  yields (fun v => exists s, v = Some s /\ stable s) (page_flow w url).
Proof.
  pose proof classify_yields. unfold page_flow. py_struct.
Qed.

Lemma prober_quiet (url : string) :
  quiet is_browser_call (get_stock_status_playwright w url).
Proof.
  pose proof page_flow_quiet.
  unfold get_stock_status_playwright, debug_screenshot, do_.
  py_struct.
Qed.

Lemma prober_yields (url : string) :
  yields status_or_none (get_stock_status_playwright w url).
Proof.
  assert (yields status_or_none (page_flow w url)) as Hflow.
  { intros fs v Hv. destruct (page_flow_yields url fs v Hv) as (s & -> & [-> | ->]);
      unfold status_or_none; auto. }
  unfold get_stock_status_playwright, with_ctx, status_or_none in *.
  py_struct; apply yields_ret; auto.
Qed.

Lemma prober_total (url : string) : total (get_stock_status_playwright w url).
Proof.
  intros fs. unfold get_stock_status_playwright.
  rewrite try_except_const. now eexists.
Qed.

(** The whole run of the prober when the session around the page flow goes
    through and the page flow returns [v]. *)
Lemma prober_run (url : string) fs v :
  browser_do w StartPlaywright = Ok tt ->
  browser_do w Launch = Ok tt ->
  browser_do w NewPage = Ok tt ->
  res (page_flow w url fs) = Ok v ->
  browser_do w CloseBrowser = Ok tt ->
  browser_do w StopPlaywright = Ok tt ->
  res (get_stock_status_playwright w url fs) = Ok v.
Proof.
  intros Hstart Hlaunch Hpage Hflow Hclose Hstop.
  unfold get_stock_status_playwright. rewrite try_except_const.
  unfold with_ctx, try_finally, try_except, bind, do_, extern. simpl.
  rewrite Hstart. simpl. rewrite Hlaunch. simpl. rewrite Hpage. simpl.
  rewrite Hflow. simpl. rewrite Hclose, Hstop. simpl. now rewrite Hflow.
Qed.

(** *** The session around the page flow, layer by layer *)

Lemma run_eta {A} (r : run A) : r = Run (res r) (file r) (trace r).
Proof. now destruct r. Qed.

Section Session.

(** Any page flow that leaves the state file alone. *)
Variable m : M (option string).
Hypothesis m_file : forall fs, file (m fs) = fs.

(** The inner [try]: the page flow under its two handlers. *)
Let guarded : M (option string) :=
  try_except m
    (fun e =>
       match e with
       | PWTimeout _ => debug_screenshot w ;; ret None
       | PyException _ => debug_screenshot w ;; ret None
       end).

Lemma guarded_run fs :
  guarded fs =
    Run (Ok match res (m fs) with Ok v => v | Raise _ => None end) fs
        (trace (m fs)
         ++ (if is_ok (res (m fs)) then []
             else [CBrowser (Screenshot "/tmp/amul_debug.png")])).
Proof.
  unfold guarded, try_except.
  destruct (res (m fs)) as [v|e] eqn:Hres; cbn [is_ok].
  - rewrite (run_eta (m fs)), Hres, m_file. cbn [res file trace].
    now rewrite app_nil_r.
  - rewrite m_file.
    destruct e; unfold debug_screenshot, bind, try_except, do_, extern;
      cbn [res file trace];
      destruct (browser_do w (Screenshot "/tmp/amul_debug.png")) as [[]|e'];
      cbn [res file trace]; now rewrite ?app_nil_r.
Qed.

(** [finally: browser.close()] *)
Let closing : M (option string) := try_finally guarded (do_ w CloseBrowser).

Lemma closing_run fs :
  closing fs =
    Run (match browser_do w CloseBrowser with
         | Ok _ => Ok match res (m fs) with Ok v => v | Raise _ => None end
         | Raise e => Raise e
         end) fs
        (trace (m fs)
         ++ (if is_ok (res (m fs)) then []
             else [CBrowser (Screenshot "/tmp/amul_debug.png")])
         ++ [CBrowser CloseBrowser]).
Proof.
  unfold closing, try_finally. rewrite guarded_run.
  unfold do_, extern. cbn [res file trace]. now rewrite <- app_assoc.
Qed.

(** The body of [with sync_playwright() as p]. *)
Let launched : M (option string) :=
  do_ w Launch ;; do_ w NewPage ;; closing.

Lemma launched_run fs :
  launched fs =
    Run (match browser_do w Launch with
         | Ok _ => match browser_do w NewPage with
                   | Ok _ => res (closing fs)
                   | Raise e => Raise e
                   end
         | Raise e => Raise e
         end) fs
        (CBrowser Launch ::
         (if is_ok (browser_do w Launch) then
            CBrowser NewPage ::
            (if is_ok (browser_do w NewPage) then trace (closing fs) else [])
          else [])).
Proof.
  unfold launched, bind, do_, extern. cbn [res file trace].
  destruct (browser_do w Launch) as [[]|e1]; cbn [res file trace is_ok app];
    [|reflexivity].
  destruct (browser_do w NewPage) as [[]|e2]; cbn [res file trace is_ok app];
    [|reflexivity].
  now rewrite closing_run.
Qed.

(** [with sync_playwright() as p] *)
Let started : M (option string) :=
  with_ctx (do_ w StartPlaywright) (do_ w StopPlaywright) launched.

Lemma started_run fs :
  started fs =
    Run (match browser_do w StartPlaywright with
         | Ok _ => match browser_do w StopPlaywright with
                   | Ok _ => res (launched fs)
                   | Raise e => Raise e
                   end
         | Raise e => Raise e
         end) fs
        (CBrowser StartPlaywright ::
         (if is_ok (browser_do w StartPlaywright)
          then trace (launched fs) ++ [CBrowser StopPlaywright]
          else [])).
Proof.
  unfold started, with_ctx.
  destruct (browser_do w StartPlaywright) as [[]|e0] eqn:Hstart; cbn [is_ok].
  - rewrite (bind_Ok _ _ fs tt) by (unfold do_, extern; cbn [res]; exact Hstart).
    unfold try_finally, do_, extern. cbn [res file trace].
    rewrite launched_run. cbn [res file trace]. reflexivity.
  - rewrite (bind_Raise _ _ fs e0) by (unfold do_, extern; cbn [res]; exact Hstart).
    reflexivity.
Qed.

Lemma session_run fs :
  try_except started (fun _ => ret None) fs =
  Run (Ok (if is_ok (browser_do w StartPlaywright) && is_ok (browser_do w Launch)
              && is_ok (browser_do w NewPage) && is_ok (browser_do w CloseBrowser)
              && is_ok (browser_do w StopPlaywright)
           then match res (m fs) with Ok v => v | Raise _ => None end
           else None))
      fs
      (CBrowser StartPlaywright ::
       (if is_ok (browser_do w StartPlaywright) then
          (CBrowser Launch ::
           (if is_ok (browser_do w Launch) then
              CBrowser NewPage ::
              (if is_ok (browser_do w NewPage) then
                 trace (m fs)
                 ++ (if is_ok (res (m fs)) then []
                     else [CBrowser (Screenshot "/tmp/amul_debug.png")])
                 ++ [CBrowser CloseBrowser]
               else [])
            else []))
          ++ [CBrowser StopPlaywright]
        else [])).
Proof.
  unfold try_except. rewrite started_run, launched_run, closing_run.
  cbn [res file trace].
  destruct (browser_do w StartPlaywright) as [[]|e0]; cbn [is_ok andb];
    [|now rewrite ?app_nil_r].
  destruct (browser_do w Launch) as [[]|e1]; cbn [is_ok andb];
    [|destruct (browser_do w StopPlaywright) as [[]|e5]; cbn [ret res file trace];
      now rewrite ?app_nil_r].
  destruct (browser_do w NewPage) as [[]|e2]; cbn [is_ok andb];
    [|destruct (browser_do w StopPlaywright) as [[]|e5]; cbn [ret res file trace];
      now rewrite ?app_nil_r].
  destruct (browser_do w CloseBrowser) as [[]|e4]; cbn [is_ok andb];
    destruct (browser_do w StopPlaywright) as [[]|e5];
    cbn [is_ok andb ret res file trace]; now rewrite ?app_nil_r.
Qed.

End Session.

Lemma prober_formula (url : string) fs :
  get_stock_status_playwright w url fs =
  Run (Ok (if is_ok (browser_do w StartPlaywright) && is_ok (browser_do w Launch)
              && is_ok (browser_do w NewPage) && is_ok (browser_do w CloseBrowser)
              && is_ok (browser_do w StopPlaywright)
           then match res (page_flow w url fs) with Ok v => v | Raise _ => None end
           else None))
      fs
      (CBrowser StartPlaywright ::
       (if is_ok (browser_do w StartPlaywright) then
          (CBrowser Launch ::
           (if is_ok (browser_do w Launch) then
              CBrowser NewPage ::
              (if is_ok (browser_do w NewPage) then
                 trace (page_flow w url fs)
                 ++ (if is_ok (res (page_flow w url fs)) then []
                     else [CBrowser (Screenshot "/tmp/amul_debug.png")])
                 ++ [CBrowser CloseBrowser]
               else [])
            else []))
          ++ [CBrowser StopPlaywright]
        else [])).
Proof.
  exact (session_run (page_flow w url) (fun fs' => proj1 (page_flow_quiet url fs')) fs).
Qed.

(** A status comes out only when no step of the session raised. *)
Lemma prober_status_inv (url : string) fs s :
  res (get_stock_status_playwright w url fs) = Ok (Some s) ->
  browser_do w StartPlaywright = Ok tt
  /\ browser_do w Launch = Ok tt
  /\ browser_do w NewPage = Ok tt
  /\ res (page_flow w url fs) = Ok (Some s)
  /\ browser_do w CloseBrowser = Ok tt
  /\ browser_do w StopPlaywright = Ok tt.
Proof.
  rewrite prober_formula. cbn [res].
  destruct (browser_do w StartPlaywright) as [[]|e0]; [|discriminate].
  destruct (browser_do w Launch) as [[]|e1]; [|discriminate].
  destruct (browser_do w NewPage) as [[]|e2]; [|discriminate].
  destruct (browser_do w CloseBrowser) as [[]|e4]; [|discriminate].
  destruct (browser_do w StopPlaywright) as [[]|e5]; [|discriminate].
  cbn [is_ok andb].
  destruct (res (page_flow w url fs)) as [v|e3]; [|discriminate].
  intros [= ->]. now repeat split.
Qed.

End Prober.

(** ** The state store *)

Section Store.

Variable w : World.

Lemma load_state_quiet : quiet is_read_call (load_state w).
Proof.
  assert (quiet is_read_call (os_path_exists w)) by (intros fs; now split).
  assert (quiet is_read_call (open_read w)) by (intros fs; now split).
  assert (quiet is_read_call (read_text w)) by (intros fs; now split).
  unfold load_state. py_struct.
Qed.

Lemma load_state_res (fs : option string) :
  res (load_state w fs) =
    Ok match fs with
       | Some d => if readable w then strip (universal_newlines d) else "out-of-stock"
       | None => "out-of-stock"
       end.
Proof.
  unfold load_state, readable, try_except, bind, os_path_exists, open_read, read_text.
  simpl.
  destruct (fileio w Exists) as [[]|e0], fs as [d|]; simpl; try reflexivity.
  destruct (fileio w OpenRead) as [[]|e1]; simpl; try reflexivity.
  destruct (fileio w ReadText) as [[]|e2]; reflexivity.
Qed.

Lemma save_state_res (data : string) fs : res (save_state w data fs) = Ok tt.
Proof.
  unfold save_state. rewrite try_except_const.
  now destruct (res (bind (open_write w) (fun _ => write_text w data) fs)) as [[]|e].
Qed.

Lemma save_state_file (data : string) fs :
  file (save_state w data fs) = saved w data fs.
Proof.
  unfold save_state, saved, try_except, bind, open_write, write_text.
  destruct (fileio w OpenWrite) as [[]|e0]; simpl; [|reflexivity].
  destruct (fileio w (WriteText data)) as [[]|e1]; reflexivity.
Qed.

(** [save_state data] makes write calls only, and the one text it hands to
    [f.write] is [data]. *)
Lemma save_state_trace (data : string) fs :
  forallb is_write_call (trace (save_state w data fs)) = true
  /\ written_texts (eq data) (trace (save_state w data fs)).
Proof.
  unfold save_state, written_texts, try_except, bind, open_write, write_text.
  destruct (fileio w OpenWrite) as [[]|e0]; simpl.
  - destruct (fileio w (WriteText data)) as [[]|e1]; simpl;
      (split; [reflexivity|]); intros d [H|[H|[]]]; congruence.
  - split; [reflexivity|]. intros d [H|[]]. discriminate.
Qed.

End Store.

(** ** The notifier *)

Section Notifier.

Variable w : World.

#[local] Notation "'connect'" :=
  (Connect (SMTP_SERVER (config w)) (SMTP_PORT (config w))).
#[local] Notation "'login'" :=
  (Login (SENDER_EMAIL (config w)) (SENDER_PASSWORD (config w))).

Lemma notifier_quiet (name : string) :
  quiet is_smtp_call (send_email_notification w name).
Proof. unfold send_email_notification, smtp_do. py_struct. Qed.

Lemma notifier_res (name : string) fs :
  res (send_email_notification w name fs) = Ok tt.
Proof.
  unfold send_email_notification. rewrite try_except_const.
  now destruct (res _) as [[]|e].
Qed.

(** A message that was composed holds the drafted values. *)
Lemma compose_message_Ok (name : string) (m : EmailMessage) :
  compose_message w name = Ok m -> m = draft_message w name.
Proof.
  unfold compose_message.
  destruct (_ || _); [discriminate|].
  destruct (email_pkg w _); [now intros [= <-]|discriminate].
Qed.

(** A header value with more than one line: no message. *)
Lemma compose_message_multiline (name : string) :
  multiline (Subject (draft_message w name))
  || multiline (SENDER_EMAIL (config w))
  || multiline (RECIPIENT_EMAIL (config w)) = true ->
  composable w name = false.
Proof.
  intros H. unfold composable, compose_message. cbn [From To draft_message].
  cbn [Subject draft_message] in H. cbn [Subject draft_message]. now rewrite H.
Qed.

(** The SMTP calls of one notification, as far as the session gets: none
    when the message cannot be composed. *)
Lemma notifier_trace (name : string) fs :
  trace (send_email_notification w name fs) =
    if composable w name then
      CSmtp connect ::
      (if is_ok (smtp w connect) then
         CSmtp StartTLS ::
         (if is_ok (smtp w StartTLS) then
            CSmtp login ::
            (if is_ok (smtp w login)
             then [CSmtp (SendMessage (draft_message w name))] else [])
          else [])
         ++ [CSmtp Quit]
       else [])
    else [].
Proof.
  unfold composable, send_email_notification.
  destruct (compose_message w name) as [m|e] eqn:E; cbn [is_ok].
  - apply compose_message_Ok in E as ->.
    unfold with_ctx, try_except, try_finally, bind, lift, smtp_do, extern.
    simpl.
    destruct (smtp w connect) as [[]|e0]; simpl; [|reflexivity].
    destruct (smtp w StartTLS) as [[]|e1]; simpl.
    + destruct (smtp w login) as [[]|e2]; simpl.
      * destruct (smtp w (SendMessage (draft_message w name))) as [[]|e3]; simpl;
          destruct (smtp w Quit) as [[]|e4]; reflexivity.
      * destruct (smtp w Quit) as [[]|e4]; reflexivity.
    + destruct (smtp w Quit) as [[]|e4]; reflexivity.
  - reflexivity.
Qed.




End Notifier.

(** ** The orchestrator *)

Section Orchestrator.

Variable w : World.

#[local] Notation "'probe'" := (get_stock_status_playwright w (PRODUCT_URL (config w))).
#[local] Notation "'notify'" := (send_email_notification w "Amul High Protein Buttermilk").


(** A cycle whose probe gives no usable status stops after the probe. *)
Lemma check_cycle_skipped fs v :
  res (probe fs) = Ok v ->
  match v with Some s => nonempty s = false | None => True end ->
  check_cycle w fs = Run (Ok success_message) fs (trace (probe fs)).
Proof.
  intros Hprobe Hv. unfold check_cycle.
  rewrite (bind_Ok _ _ _ _ Hprobe).
  destruct (prober_quiet w (PRODUCT_URL (config w)) fs) as [-> _].
  destruct v as [s|]; [rewrite Hv|]; simpl; now rewrite app_nil_r.
Qed.

(** A cycle whose probe gives a status: load, maybe notify, save. *)
Lemma check_cycle_probed fs cur last :
  res (probe fs) = Ok (Some cur) ->
  nonempty cur = true ->
  res (load_state w fs) = Ok last ->
  check_cycle w fs =
    Run (Ok success_message) (saved w cur fs)
        (trace (probe fs) ++ trace (load_state w fs)
         ++ (if String.eqb last "out-of-stock" && String.eqb cur "in-stock"
             then trace (notify fs) else [])
         ++ trace (save_state w cur fs)).
Proof.
  intros Hprobe Hne Hload. unfold check_cycle.
  rewrite (bind_Ok _ _ _ _ Hprobe).
  destruct (prober_quiet w (PRODUCT_URL (config w)) fs) as [-> _].
  rewrite Hne.
  assert (forall (m : M unit),
            res (m fs) = Ok tt -> file (m fs) = fs ->
            bind m (fun _ => save_state w cur) fs =
              Run (Ok tt) (saved w cur fs) (trace (m fs) ++ trace (save_state w cur fs)))
    as Hsave.
  { intros m Hres Hfile. rewrite (bind_Ok _ _ _ _ Hres), Hfile.
    now rewrite save_state_res, save_state_file. }
  assert (bind (load_state w)
               (fun last_status =>
                  (if String.eqb last_status "out-of-stock" && String.eqb cur "in-stock"
                   then notify else ret tt) ;;
                  save_state w cur) fs =
            Run (Ok tt) (saved w cur fs)
                (trace (load_state w fs)
                 ++ (if String.eqb last "out-of-stock" && String.eqb cur "in-stock"
                     then trace (notify fs) else [])
                 ++ trace (save_state w cur fs))) as Hrest.
  { rewrite (bind_Ok _ _ _ _ Hload).
    destruct (load_state_quiet w fs) as [-> _].
    rewrite Hsave.
    - simpl. now destruct (_ && _).
    - destruct (_ && _); [apply notifier_res|reflexivity].
    - destruct (_ && _); [apply (notifier_quiet w)|reflexivity]. }
  rewrite (bind_Ok _ _ fs tt) by now rewrite Hrest.
  rewrite Hrest. simpl. now rewrite app_nil_r.
Qed.

(** The cycle never raises, answers the success message, and its effect on
    the state file is that of the one [save_state] it may make. *)
Lemma check_cycle_res fs : res (check_cycle w fs) = Ok success_message.
Proof.
  destruct (prober_total w (PRODUCT_URL (config w)) fs) as [v Hv].
  destruct v as [cur|].
  - destruct (nonempty cur) eqn:Hne.
    + now rewrite (check_cycle_probed fs cur _ Hv Hne (load_state_res w fs)).
    + now rewrite (check_cycle_skipped fs _ Hv Hne).
  - now rewrite (check_cycle_skipped fs _ Hv I).
Qed.

Lemma cycle_is_check_cycle fs :
  buttermilk_checker_v2_function w fs = check_cycle w fs.
Proof.
  unfold buttermilk_checker_v2_function, top_level.
  apply (try_except_Ok _ _ _ _ (check_cycle_res fs)).
Qed.

Lemma cycle_file fs :
  file (buttermilk_checker_v2_function w fs) =
    match res (probe fs) with
    | Ok (Some cur) => if nonempty cur then saved w cur fs else fs
    | _ => fs
    end.
Proof.
  rewrite cycle_is_check_cycle.
  destruct (prober_total w (PRODUCT_URL (config w)) fs) as [v Hv]. rewrite Hv.
  destruct v as [cur|].
  - destruct (nonempty cur) eqn:Hne.
    + now rewrite (check_cycle_probed fs cur _ Hv Hne (load_state_res w fs)).
    + now rewrite (check_cycle_skipped fs _ Hv Hne).
  - now rewrite (check_cycle_skipped fs _ Hv I).
Qed.

End Orchestrator.

(** ** Which exceptions end the probe *)

Section Strictness.

Variable w : World.

Lemma strict_ret {A} (a : A) : strict w (ret a).
Proof. intros fs c []. Qed.

Lemma strict_do (a : action) : strict w (do_ w a).
Proof.
  intros fs c [<-|[]] Hr _. simpl in *.
  destruct (browser_do w a); [discriminate|now eexists].
Qed.

Lemma strict_ask (q : bquery) : strict w (ask w q).
Proof.
  intros fs c [<-|[]] Hr _. simpl in *.
  destruct (browser_ask w q); [discriminate|now eexists].
Qed.

Lemma strict_count (q : cquery) : strict w (count w q).
Proof.
  intros fs c [<-|[]] Hr _. simpl in *.
  destruct (browser_count w q); [discriminate|now eexists].
Qed.

Lemma strict_bind {A B} (m : M A) (k : A -> M B) :
  strict w m -> (forall a, strict w (k a)) -> strict w (bind m k).
Proof.
  intros Hm Hk fs c Hin Hr Hs. unfold bind in *.
  destruct (res (m fs)) as [a|e] eqn:E; simpl in *.
  - apply in_app_or in Hin as [Hin|Hin].
    + destruct (Hm fs c Hin Hr Hs) as [e He]. congruence.
    + apply (Hk a _ c Hin Hr Hs).
  - now eexists.
Qed.

(** A block whose every call is a swallowed one, under a handler that
    calls nothing. *)
Lemma strict_swallowing {A} (m : M A) (v : A) :
  (forall fs, forallb swallowed (trace (m fs)) = true) ->
  strict w (try_except m (fun _ => ret v)).
Proof.
  intros Hm fs c Hin _ Hs. exfalso.
  assert (In c (trace (m fs))) as Hin'.
  { unfold try_except in Hin. destruct (res (m fs)); simpl in Hin; [exact Hin|].
    now rewrite app_nil_r in Hin. }
  pose proof (Hm fs) as Hall. rewrite forallb_forall in Hall.
  specialize (Hall c Hin'). congruence.
Qed.

Ltac strict_step :=
  match goal with
  | |- forall _, _ => intro
  | |- strict _ (ret _) => apply strict_ret
  | |- strict _ (do_ _ _) => apply strict_do
  | |- strict _ (ask _ _) => apply strict_ask
  | |- strict _ (count _ _) => apply strict_count
  | |- strict _ (bind _ _) => apply strict_bind
  | |- strict _ (if ?b then _ else _) => destruct b
  | |- strict _ (try_except _ (fun _ => ret _)) =>
      apply strict_swallowing; intro;
      unfold bind, do_, extern; simpl;
      repeat match goal with |- context [browser_do ?w ?a] =>
               destruct (browser_do w a); simpl end;
      reflexivity
  | |- _ => solve [auto]
  end.

Lemma try_candidates_strict (cands : list string) :
  strict w (try_candidates w cands).
Proof.
  induction cands as [|txt rest IH]; simpl; repeat strict_step.
Qed.

Lemma navigate_strict (url : string) : strict w (navigate w url).
Proof.
  pose proof try_candidates_strict.
  unfold navigate, _open_pincode_modal, _enter_pincode. repeat strict_step.
Qed.

Lemma classify_strict : strict w (classify w).
Proof. unfold classify. repeat strict_step. Qed.

Lemma page_flow_strict (url : string) : strict w (page_flow w url).
Proof.
  pose proof navigate_strict. pose proof classify_strict.
  unfold page_flow. repeat strict_step.
Qed.

(** The calls of a probe whose session goes through. *)
Lemma prober_trace (url : string) fs v :
  browser_do w StartPlaywright = Ok tt ->
  browser_do w Launch = Ok tt ->
  browser_do w NewPage = Ok tt ->
  res (page_flow w url fs) = Ok v ->
  browser_do w CloseBrowser = Ok tt ->
  browser_do w StopPlaywright = Ok tt ->
  trace (get_stock_status_playwright w url fs) =
    ([CBrowser StartPlaywright; CBrowser Launch; CBrowser NewPage]
     ++ trace (page_flow w url fs)
     ++ [CBrowser CloseBrowser; CBrowser StopPlaywright])%list.
Proof.
  intros Hstart Hlaunch Hpage Hflow Hclose Hstop.
  unfold get_stock_status_playwright, with_ctx, try_finally, try_except, bind,
    do_, extern.
  simpl. rewrite Hstart. simpl. rewrite Hlaunch. simpl. rewrite Hpage. simpl.
  rewrite Hflow. simpl. rewrite Hclose, Hstop. simpl. rewrite Hflow. simpl.
  now rewrite <- app_assoc.
Qed.

End Strictness.

(** ** Helpers on traces *)

Lemma existsb_none {A} (T U : A -> bool) (l : list A) :
  (forall c, T c = true -> U c = false) ->
  forallb T l = true -> existsb U l = false.
Proof.
  intros HTU. induction l as [|c l IH]; simpl; [reflexivity|].
  intros H. apply andb_true_iff in H as [Hc Hl].
  now rewrite (HTU c Hc), (IH Hl).
Qed.

Lemma not_in_of_forallb {A} (T : A -> bool) (l : list A) (c : A) :
  forallb T l = true -> T c = false -> ~ In c l.
Proof.
  intros Hall Hc Hin. rewrite forallb_forall in Hall.
  specialize (Hall c Hin). congruence.
Qed.

(** * The claims *)

Section Claims.

Variable w : World.

#[local] Notation "'probe'" := (get_stock_status_playwright w (PRODUCT_URL (config w))).
#[local] Notation "'notify'" := (send_email_notification w "Amul High Protein Buttermilk").
#[local] Notation "'cycle'" := (buttermilk_checker_v2_function w).

(** A status that the probe returns is a stable label. *)
Lemma probed_stable fs cur : res (probe fs) = Ok (Some cur) -> stable cur.
Proof.
  intros H. destruct (prober_yields w _ fs _ H) as [[= ->]|[[= ->]|[=]]];
    unfold stable; auto.
Qed.

(** The calls of a cycle whose probe returned a status. *)
Lemma cycle_trace fs cur last :
  res (probe fs) = Ok (Some cur) ->
  res (load_state w fs) = Ok last ->
  trace (cycle fs) =
    (trace (probe fs) ++ trace (load_state w fs)
     ++ (if String.eqb last "out-of-stock" && String.eqb cur "in-stock"
         then trace (notify fs) else [])
     ++ trace (save_state w cur fs))%list.
Proof.
  intros Hprobe Hload. rewrite cycle_is_check_cycle.
  now rewrite (check_cycle_probed w fs cur last Hprobe
                 (stable_nonempty _ (probed_stable _ _ Hprobe)) Hload).
Qed.


(** C2, amended. When the probe returns a status and the state file takes
    the write, the state file holds that status at the end of the cycle,
    whether or not the notification fired and whatever became of the
    send. *)
Theorem state_follows_probe fs cur :
  res (probe fs) = Ok (Some cur) ->
  writable w cur = true ->
  file (cycle fs) = Some cur.
Proof.
  intros Hprobe Hw. rewrite cycle_file, Hprobe.
  rewrite (stable_nonempty _ (probed_stable _ _ Hprobe)).
  unfold writable in Hw. apply andb_true_iff in Hw as [Ho Hd].
  unfold saved. now rewrite Ho, Hd.
Qed.

(** C3. When the probe returns the failure marker the state file is what it
    was, no call of the cycle touches it (the only calls are those of the
    browser), and the invocation answers the success message. *)
Theorem failed_probe_leaves_state fs :
  res (probe fs) = Ok None ->
  file (cycle fs) = fs
  /\ res (cycle fs) = Ok success_message
  /\ existsb is_write_call (trace (cycle fs)) = false
  /\ forallb is_browser_call (trace (cycle fs)) = true.
Proof.
  intros Hprobe. rewrite cycle_is_check_cycle.
  rewrite (check_cycle_skipped w fs None Hprobe I). simpl.
  destruct (prober_quiet w (PRODUCT_URL (config w)) fs) as [_ Hp].
  repeat split; [|exact Hp].
  apply (existsb_none is_browser_call); [now intros []|exact Hp].
Qed.

(** C4, amended. [load_state] leaves the file alone and returns
    out-of-stock when the file is missing or cannot be read; otherwise it
    returns the text of the file, newlines normalised and surrounding
    white space stripped, whatever that text is: a stable label comes back
    as it was stored, any other content comes back too and is not replaced
    by the default. *)
Theorem load_state_contract fs :
  file (load_state w fs) = fs
  /\ res (load_state w fs) =
       Ok match fs with
          | Some d => if readable w then strip (universal_newlines d)
                      else "out-of-stock"
          | None => "out-of-stock"
          end
  /\ (forall s, stable s -> readable w = true -> res (load_state w (Some s)) = Ok s).
Proof.
  split; [apply (load_state_quiet w)|]. split; [apply load_state_res|].
  intros s Hs Hr. now rewrite load_state_res, Hr, stable_read_back.
Qed.

(** The classification block on a page that answers as [p]. *)
Lemma classify_res (p : PageState) fs :
  shows w p -> res (classify w fs) = Ok (Some (spec_classification p)).
Proof.
  intros (Hso & Hrest).
  unfold classify, spec_classification, add_to_cart_signal in *.
  unfold bind, ask, count, extern. simpl.
  rewrite Hso. simpl. destruct (sold_out_alert p); simpl; [reflexivity|].
  destruct (Hrest eq_refl) as (Hn & Hbutton & Hu).
  rewrite Hn. simpl. destruct (add_to_cart_buttons p >? 0)%Z; simpl.
  - destruct (Hbutton eq_refl) as (Hv & He).
    rewrite Hv. simpl. destruct (add_to_cart_visible p); simpl.
    + rewrite (He eq_refl). simpl.
      destruct (add_to_cart_enabled p); simpl; [reflexivity|].
      rewrite (Hu eq_refl). simpl. now destruct (undeliverable_texts p >? 0)%Z.
    + rewrite (Hu eq_refl). simpl. now destruct (undeliverable_texts p >? 0)%Z.
  - rewrite (Hu eq_refl). simpl. now destruct (undeliverable_texts p >? 0)%Z.
Qed.

(** Every classification that the block returns is that of a page which
    the browser shows: the answers it got make up one. *)
Lemma classify_covered fs s :
  res (classify w fs) = Ok (Some s) ->
  exists p, shows w p /\ s = spec_classification p.
Proof.
  unfold classify, bind, ask, count, extern. cbn [res file trace].
  destruct (browser_ask w SoldOutVisible) as [[|]|e0] eqn:Hso; cbn [res file trace].
  - intros [= <-]. exists (Build_PageState true 0 false false 0).
    split; [|reflexivity]. split; [exact Hso|]. discriminate.
  - destruct (browser_count w AddToCartCount) as [n|e1] eqn:Hn; cbn [res file trace];
      [|discriminate].
    destruct (n >? 0)%Z eqn:Hpos; cbn [res file trace ret].
    + destruct (browser_ask w AddToCartVisible) as [[|]|e2] eqn:Hv;
        cbn [res file trace ret]; [| |discriminate].
      * destruct (browser_ask w AddToCartEnabled) as [[|]|e3] eqn:He;
          cbn [res file trace ret]; [| |discriminate].
        -- intros [= <-]. exists (Build_PageState false n true true 0).
           unfold shows, spec_classification, add_to_cart_signal.
           cbn [sold_out_alert add_to_cart_buttons add_to_cart_visible
                add_to_cart_enabled undeliverable_texts].
           rewrite Hpos. split; [|reflexivity].
           split; [exact Hso|]. intros _. split; [exact Hn|].
           split; [now intros _|discriminate].
        -- destruct (browser_count w UndeliverableCount) as [k|e4] eqn:Hu;
             cbn [res file trace ret]; [|discriminate].
           intros Hres. exists (Build_PageState false n true false k).
           unfold shows, spec_classification, add_to_cart_signal.
           cbn [sold_out_alert add_to_cart_buttons add_to_cart_visible
                add_to_cart_enabled undeliverable_texts].
           rewrite Hpos. cbn [andb].
           split; [|destruct (k >? 0)%Z; now injection Hres].
           split; [exact Hso|]. intros _. split; [exact Hn|].
           split; [now intros _|now intros _].
      * destruct (browser_count w UndeliverableCount) as [k|e4] eqn:Hu;
          cbn [res file trace ret]; [|discriminate].
        intros Hres. exists (Build_PageState false n false false k).
        unfold shows, spec_classification, add_to_cart_signal.
        cbn [sold_out_alert add_to_cart_buttons add_to_cart_visible
             add_to_cart_enabled undeliverable_texts].
        rewrite Hpos. cbn [andb].
        split; [|destruct (k >? 0)%Z; now injection Hres].
        split; [exact Hso|]. intros _. split; [exact Hn|].
        split; [|now intros _]. intros _. split; [exact Hv|discriminate].
    + destruct (browser_count w UndeliverableCount) as [k|e4] eqn:Hu;
        cbn [res file trace ret]; [|discriminate].
      intros Hres. exists (Build_PageState false n false false k).
      unfold shows, spec_classification, add_to_cart_signal.
      cbn [sold_out_alert add_to_cart_buttons add_to_cart_visible
           add_to_cart_enabled undeliverable_texts].
      rewrite Hpos. cbn [andb].
      split; [|destruct (k >? 0)%Z; now injection Hres].
      split; [exact Hso|]. intros _. split; [exact Hn|].
      split; [discriminate|now intros _].
  - discriminate.
Qed.

(** The first heuristic wins whatever the later queries would answer. *)
Lemma sold_out_wins fs :
  browser_ask w SoldOutVisible = Ok true ->
  res (classify w fs) = Ok (Some "out-of-stock").
Proof.
  intros H. unfold classify, bind, ask, extern. simpl. now rewrite H.
Qed.

(** The second heuristic wins over the undeliverable wording. *)
Lemma add_to_cart_wins fs n :
  browser_ask w SoldOutVisible = Ok false ->
  browser_count w AddToCartCount = Ok n -> (n > 0)%Z ->
  browser_ask w AddToCartVisible = Ok true ->
  browser_ask w AddToCartEnabled = Ok true ->
  res (classify w fs) = Ok (Some "in-stock").
Proof.
  intros Hso Hn Hpos Hv He. unfold classify, bind, ask, count, extern. simpl.
  rewrite Hso. simpl. rewrite Hn. simpl.
  replace (n >? 0)%Z with true by (symmetry; now apply Z.gtb_lt, Z.gt_lt).
  simpl. rewrite Hv. simpl. now rewrite He.
Qed.

(** C5. The ordered heuristics of the specification decide the
    classification, for every page state.  Whenever the browser shows a
    page [p] (it answers as [p] says the queries that the heuristics need,
    in their order and up to the first match, whatever it would answer to
    the others) and the session around the classification goes through,
    the prober returns what the heuristics give on [p]: sold-out alert
    first, then a visible and enabled add-to-cart button, then the
    undeliverable wording, then the out-of-stock default.  And every
    status that the prober returns is decided in this way: it is what the
    heuristics give on a page that the browser shows. *)
Theorem classification_order (url : string) fs :
  (forall p : PageState,
      session_ok w url fs -> shows w p ->
      res (get_stock_status_playwright w url fs) = Ok (Some (spec_classification p)))
  /\ (forall s : string,
        res (get_stock_status_playwright w url fs) = Ok (Some s) ->
        session_ok w url fs
        /\ exists p, shows w p /\ s = spec_classification p).
Proof.
  split.
  - intros p (Hstart & Hlaunch & Hpage & Hnav & Hclose & Hstop) Hp.
    apply prober_run; try assumption.
    unfold page_flow. rewrite (bind_Ok _ _ _ _ Hnav). simpl.
    now apply classify_res.
  - intros s Hres.
    destruct (prober_status_inv w url fs s Hres)
      as (Hstart & Hlaunch & Hpage & Hflow & Hclose & Hstop).
    unfold page_flow in Hflow.
    apply bind_res_inv in Hflow as ([] & Hnav & Hclass).
    split; [now repeat split|].
    exact (classify_covered _ s Hclass).
Qed.

(** C6, amended. The prober never raises: it returns in-stock,
    out-of-stock or the failure marker and leaves the state file alone;
    and when a call that it made was answered with an exception, the
    result is the failure marker unless the call is one of those whose
    exception [_open_pincode_modal] swallows on the spot (the click on a
    modal trigger and the wait for the heading after it, the click on the
    location button and the wait after it). *)
Theorem prober_never_raises (url : string) fs :
  exists v,
    res (get_stock_status_playwright w url fs) = Ok v
    /\ status_or_none v
    /\ file (get_stock_status_playwright w url fs) = fs
    /\ (forall c, In c (trace (get_stock_status_playwright w url fs)) ->
                  raised w c = true -> swallowed c = false -> v = None).
Proof.
  destruct (prober_total w url fs) as [v Hv]. exists v.
  split; [exact Hv|]. split; [exact (prober_yields w url fs v Hv)|].
  split; [apply (prober_quiet w url)|].
  intros c Hin Hr Hs. destruct v as [s|]; [exfalso|reflexivity].
  destruct (prober_status_inv w url fs s Hv)
    as (Hstart & Hlaunch & Hpage & Hflow & Hclose & Hstop).
  rewrite (prober_trace w url fs _ Hstart Hlaunch Hpage Hflow Hclose Hstop) in Hin.
  rewrite !in_app_iff in Hin. simpl in Hin.
  destruct Hin as [[<-|[<-|[<-|[]]]]|[Hin|[<-|[<-|[]]]]]; simpl in Hr;
    try (rewrite ?Hstart, ?Hlaunch, ?Hpage, ?Hclose, ?Hstop in Hr; discriminate).
  destruct (page_flow_strict w url fs c Hin Hr Hs) as [e He]. congruence.
Qed.


(** C8. Whatever the relay answers to the steps of the send, the notifier
    returns normally and leaves the state file alone; the cycle answers
    the same and ends with the same state file as under any other relay,
    one that accepts the message included: when the probe returned a
    status, the state file is as [save_state] of that status leaves it. *)
Theorem send_failure_contained (f g : smtp_step -> outcome unit) (name : string) fs :
  res (send_email_notification (with_smtp f w) name fs) = Ok tt
  /\ file (send_email_notification (with_smtp f w) name fs) = fs
  /\ res (buttermilk_checker_v2_function (with_smtp f w) fs)
     = res (buttermilk_checker_v2_function (with_smtp g w) fs)
  /\ file (buttermilk_checker_v2_function (with_smtp f w) fs)
     = file (buttermilk_checker_v2_function (with_smtp g w) fs)
  /\ (forall cur,
        res (probe fs) = Ok (Some cur) ->
        file (buttermilk_checker_v2_function (with_smtp f w) fs)
        = file (save_state w cur fs)).
Proof.
  split; [apply notifier_res|]. split; [apply (notifier_quiet (with_smtp f w))|].
  split; [now rewrite !cycle_is_check_cycle, !check_cycle_res|].
  split; [now rewrite !cycle_file|].
  intros cur Hprobe. rewrite cycle_file. simpl config.
  change (get_stock_status_playwright (with_smtp f w)) with (get_stock_status_playwright w).
  rewrite Hprobe, (stable_nonempty _ (probed_stable _ _ Hprobe)).
  now rewrite save_state_file.
Qed.

(** The calls of a cycle that can change the state file write a stable
    label. *)
Lemma cycle_writes_labels fs : written_texts stable (trace (cycle fs)).
Proof.
  intros d Hin.
  destruct (prober_quiet w (PRODUCT_URL (config w)) fs) as [_ Hp].
  destruct (prober_total w (PRODUCT_URL (config w)) fs) as [v Hv].
  assert (is_browser_call (CFile (WriteText d)) = false) as Hb by reflexivity.
  destruct v as [cur|].
  - rewrite (cycle_trace fs cur _ Hv (load_state_res w fs)) in Hin.
    rewrite !in_app_iff in Hin. destruct Hin as [H|[H|[H|H]]].
    + now apply (not_in_of_forallb _ _ _ Hp) in H.
    + destruct (load_state_quiet w fs) as [_ Hl].
      now apply (not_in_of_forallb _ _ _ Hl) in H.
    + destruct (_ && _); [|destruct H].
      destruct (notifier_quiet w "Amul High Protein Buttermilk" fs) as [_ Hn].
      now apply (not_in_of_forallb _ _ _ Hn) in H.
    + destruct (save_state_trace w cur fs) as [_ Hs].
      rewrite <- (Hs d H). exact (probed_stable _ _ Hv).
  - rewrite cycle_is_check_cycle, (check_cycle_skipped w fs None Hv I) in Hin.
    now apply (not_in_of_forallb _ _ _ Hp) in Hin.
Qed.

(** One invocation keeps the state file absent or on a stable label when
    its write is not cut short. *)
Lemma cycle_keeps_wf fs :
  state_wf fs -> write_not_cut_short w fs -> state_wf (file (cycle fs)).
Proof.
  intros Hwf Hwc. rewrite cycle_file.
  destruct (res (probe fs)) as [[cur|]|e] eqn:Hv; try exact Hwf.
  rewrite (stable_nonempty _ (probed_stable _ _ Hv)). unfold saved.
  destruct (is_ok (fileio w OpenWrite)) eqn:Ho; [|exact Hwf].
  rewrite (Hwc cur Hv Ho). exact (probed_stable _ _ Hv).
Qed.

(** From such a state file [load_state] reads a stable label, in any
    world. *)
Lemma load_state_stable (w' : World) fs :
  state_wf fs -> exists s, res (load_state w' fs) = Ok s /\ stable s.
Proof.
  intros Hwf. rewrite load_state_res. eexists. split; [reflexivity|].
  destruct fs as [d|]; [|now right].
  destruct (readable w'); [|now right].
  simpl in Hwf. now rewrite stable_read_back.
Qed.

(** C9, amended. In every world and from every state file, the only texts
    that an invocation hands to the state file are stable labels, never
    the failure marker.  And starting from a state file that is absent or
    holds a stable label, after an invocation whose own write is not cut
    short once the file was opened (and truncated), the state file is
    absent or holds a stable label, and the persisted value as
    [load_state] reads it, in this world or any other, is one of the two
    stable labels. *)
Theorem state_stays_stable fs :
  written_texts stable (trace (cycle fs))
  /\ (state_wf fs ->
      write_not_cut_short w fs ->
      state_wf (file (cycle fs))
      /\ (forall w' : World,
            exists s, res (load_state w' (file (cycle fs))) = Ok s /\ stable s)).
Proof.
  split; [apply cycle_writes_labels|].
  intros Hwf Hwc. pose proof (cycle_keeps_wf fs Hwf Hwc) as Hafter.
  split; [exact Hafter|]. intros w'. now apply load_state_stable.
Qed.

(** C10, amended. A status without leading or trailing white space and
    without a carriage return comes back from [load_state] as it was given
    to [save_state], when the file system lets the write and the read
    through. *)
Theorem save_load_roundtrip (status : string) fs :
  no_outer_space status ->
  contains CR status = false ->
  writable w status = true ->
  readable w = true ->
  res (load_state w (file (save_state w status fs))) = Ok status.
Proof.
  intros Hsp Hcr Hw Hr. rewrite save_state_file. unfold saved.
  unfold writable in Hw. apply andb_true_iff in Hw as [-> ->].
  rewrite load_state_res, Hr, (universal_newlines_fixed _ Hcr).
  now rewrite (strip_fixed _ Hsp).
Qed.

End Claims.

(** The invariant over any number of invocations. *)
Lemma invocations_keep_wf (ws : list World) :
  forall fs, state_wf fs -> writes_not_cut_short ws fs ->
             state_wf (invocations ws fs).
Proof.
  induction ws as [|w ws IH]; intros fs Hwf Hws; simpl; [exact Hwf|].
  destruct Hws as [Hw Hrest].
  apply IH; [now apply cycle_keeps_wf|exact Hrest].
Qed.



Lemma state_follows_probe_witness :
  res (get_stock_status_playwright buyable_world (PRODUCT_URL (config buyable_world))
         (Some "out-of-stock")) = Ok (Some "in-stock")
  /\ writable buyable_world "in-stock" = true
  /\ file (buttermilk_checker_v2_function buyable_world (Some "out-of-stock"))
     = Some "in-stock".
Proof.
  split; [reflexivity|]. split; [reflexivity|].
  apply (state_follows_probe buyable_world (Some "out-of-stock") "in-stock");
    reflexivity.
Defined.

(** C2 as stated fails: the probe finds the product in stock, the state
    file cannot be opened for writing, and the cycle ends with the state
    file as it was, absent; [load_state] then reads the default and not
    the probe result. *)
Lemma state_follows_probe_counterexample :
  ~ (forall (w : World) fs cur,
       res (get_stock_status_playwright w (PRODUCT_URL (config w)) fs) = Ok (Some cur) ->
       file (buttermilk_checker_v2_function w fs) = Some cur)
  /\ ~ (forall (w : World) fs cur,
         res (get_stock_status_playwright w (PRODUCT_URL (config w)) fs) = Ok (Some cur) ->
         res (load_state w (file (buttermilk_checker_v2_function w fs))) = Ok cur).
Proof.
  split; intros H;
    specialize (H (with_fileio read_only_fs buyable_world) None "in-stock" eq_refl);
    discriminate H.
Qed.

Lemma failed_probe_leaves_state_witness :
  res (get_stock_status_playwright (with_browser_do stalling_browser sold_out_world)
         (PRODUCT_URL (config sold_out_world)) (Some "in-stock")) = Ok None
  /\ file (buttermilk_checker_v2_function
             (with_browser_do stalling_browser sold_out_world) (Some "in-stock"))
     = Some "in-stock"
  /\ res (buttermilk_checker_v2_function
            (with_browser_do stalling_browser sold_out_world) (Some "in-stock"))
     = Ok success_message.
Proof.
  split; [reflexivity|].
  pose proof (failed_probe_leaves_state
                (with_browser_do stalling_browser sold_out_world) (Some "in-stock")
                eq_refl) as (Hfile & Hres & _).
  split; [exact Hfile|exact Hres].
Defined.

(** C4 as stated fails: the file can be read and holds a text that is not
    a stable label; [load_state] returns that text, not out-of-stock. *)
Lemma load_state_contract_counterexample :
  ~ (forall (w : World) (d : string),
       ~ stable d -> res (load_state w (Some d)) = Ok "out-of-stock").
Proof.
  intros H.
  assert (~ stable "garbage") as Hg by (now intros [E|E]).
  specialize (H buyable_world "garbage" Hg). discriminate H.
Qed.

Lemma load_state_contract_witness :
  res (load_state (with_fileio unreadable_fs buyable_world) (Some "in-stock"))
  = Ok "out-of-stock"
  /\ res (load_state buyable_world None) = Ok "out-of-stock"
  /\ res (load_state buyable_world (Some "in-stock")) = Ok "in-stock".
Proof.
  split; [|split].
  - exact (proj1 (proj2 (load_state_contract
                           (with_fileio unreadable_fs buyable_world) (Some "in-stock")))).
  - exact (proj1 (proj2 (load_state_contract buyable_world None))).
  - exact (proj1 (proj2 (load_state_contract buyable_world (Some "in-stock")))).
Defined.

Lemma classification_order_witness :
  (session_ok (world_showing mixed_page) "https://shop.amul.com/" (Some "in-stock")
   /\ shows (world_showing mixed_page) mixed_page
   /\ res (get_stock_status_playwright (world_showing mixed_page)
             "https://shop.amul.com/" (Some "in-stock")) = Ok (Some "out-of-stock"))
  /\ (shows (world_showing button_and_wording_page) button_and_wording_page
      /\ res (get_stock_status_playwright (world_showing button_and_wording_page)
                "https://shop.amul.com/" (Some "in-stock")) = Ok (Some "in-stock"))
  /\ (shows no_button_world undeliverable_page
      /\ browser_ask no_button_world AddToCartEnabled
         = Raise (PWTimeout "Timeout 30000ms exceeded.")
      /\ res (get_stock_status_playwright no_button_world
                "https://shop.amul.com/" (Some "in-stock")) = Ok (Some "out-of-stock")).
Proof.
  assert (session_ok (world_showing mixed_page) "https://shop.amul.com/"
            (Some "in-stock")) as Hs1 by (repeat split).
  assert (session_ok (world_showing button_and_wording_page) "https://shop.amul.com/"
            (Some "in-stock")) as Hs2 by (repeat split).
  assert (session_ok no_button_world "https://shop.amul.com/" (Some "in-stock"))
    as Hs3 by (repeat split).
  assert (shows (world_showing mixed_page) mixed_page) as Hmixed
      by (split; [reflexivity|discriminate]).
  assert (shows (world_showing button_and_wording_page) button_and_wording_page)
    as Hbutton.
  { split; [reflexivity|]. intros _. split; [reflexivity|].
    split; [intros _; split; reflexivity|discriminate]. }
  assert (shows no_button_world undeliverable_page) as Hnone.
  { split; [reflexivity|]. intros _. split; [reflexivity|].
    split; [discriminate|reflexivity]. }
  split; [|split].
  - split; [exact Hs1|]. split; [exact Hmixed|].
    exact (proj1 (classification_order (world_showing mixed_page)
                    "https://shop.amul.com/" (Some "in-stock")) mixed_page Hs1 Hmixed).
  - split; [exact Hbutton|].
    exact (proj1 (classification_order (world_showing button_and_wording_page)
                    "https://shop.amul.com/" (Some "in-stock"))
             button_and_wording_page Hs2 Hbutton).
  - split; [exact Hnone|]. split; [reflexivity|].
    exact (proj1 (classification_order no_button_world
                    "https://shop.amul.com/" (Some "in-stock"))
             undeliverable_page Hs3 Hnone).
Defined.

(** C6 as stated fails: the bounded wait for the modal heading runs out
    after each click on a trigger, the exception is swallowed, and the
    probe ends with in-stock, not with the failure marker. *)
Lemma prober_never_raises_counterexample :
  ~ (forall (w : World) (url : string) fs c,
       In c (trace (get_stock_status_playwright w url fs)) ->
       raised w c = true ->
       res (get_stock_status_playwright w url fs) = Ok None).
Proof.
  intros H.
  specialize (H stuck_trigger_world "https://shop.amul.com/" None
                (CBrowser (WaitHeading "Change Delivery Pincode"))).
  assert (res (get_stock_status_playwright stuck_trigger_world
                 "https://shop.amul.com/" None) = Ok (Some "in-stock")) as Hres
      by reflexivity.
  rewrite Hres in H. discriminate H; [|reflexivity].
  vm_compute. auto 12.
Qed.

Lemma prober_never_raises_witness :
  exists v,
    res (get_stock_status_playwright (with_browser_do stalling_browser buyable_world)
           "https://shop.amul.com/" (Some "in-stock")) = Ok v
    /\ v = None.
Proof.
  destruct (prober_never_raises (with_browser_do stalling_browser buyable_world)
              "https://shop.amul.com/" (Some "in-stock")) as (v & Hv & _ & _ & Hnone).
  exists v. split; [exact Hv|].
  apply (Hnone (CBrowser (Goto "https://shop.amul.com/"))); [|reflexivity|reflexivity].
  vm_compute. auto 8.
Defined.


Lemma send_failure_contained_witness :
  notification_fired
    (trace (buttermilk_checker_v2_function (with_smtp rejecting_smtp buyable_world)
              (Some "out-of-stock"))) = true
  /\ is_ok (rejecting_smtp (Login "pranavkheny@gmail.com" None)) = false
  /\ res (send_email_notification (with_smtp rejecting_smtp buyable_world)
            "Amul High Protein Buttermilk" (Some "out-of-stock")) = Ok tt
  /\ file (buttermilk_checker_v2_function (with_smtp rejecting_smtp buyable_world)
             (Some "out-of-stock")) = Some "in-stock".
Proof.
  destruct (send_failure_contained buyable_world rejecting_smtp (fun _ => Ok tt)
              "Amul High Protein Buttermilk" (Some "out-of-stock"))
    as (Hres & _ & _ & _ & Hfile).
  split; [reflexivity|]. split; [reflexivity|].
  split; [exact Hres|]. exact (Hfile "in-stock" eq_refl).
Defined.

(** C9 as stated fails: the state file holds out-of-stock, the probe finds
    the product in stock, the file opens for writing (and is truncated),
    the write fails, and the state file is left empty: neither the file
    nor what [load_state] reads from it is a stable label. *)
Lemma state_stays_stable_counterexample :
  ~ (forall (w : World) fs,
       state_wf fs -> state_wf (file (buttermilk_checker_v2_function w fs)))
  /\ ~ (forall (w : World) fs,
         state_wf fs ->
         exists s, res (load_state w (file (buttermilk_checker_v2_function w fs))) = Ok s
                   /\ stable s).
Proof.
  assert (state_wf (Some "out-of-stock")) as Hwf by (right; reflexivity).
  split; intros H;
    specialize (H (with_fileio full_disk_fs buyable_world) (Some "out-of-stock") Hwf).
  - destruct H as [H|H]; discriminate H.
  - destruct H as (s & Hs & [-> | ->]); discriminate Hs.
Qed.

Lemma state_stays_stable_witness :
  state_wf (Some "out-of-stock")
  /\ write_not_cut_short (with_fileio small_quota_fs buyable_world) (Some "out-of-stock")
  /\ is_ok (small_quota_fs (WriteText "out-of-stock")) = false
  /\ state_wf (file (buttermilk_checker_v2_function
                       (with_fileio small_quota_fs buyable_world)
                       (Some "out-of-stock"))).
Proof.
  assert (state_wf (Some "out-of-stock")) as Hwf by (right; reflexivity).
  assert (write_not_cut_short (with_fileio small_quota_fs buyable_world)
            (Some "out-of-stock")) as Hwc.
  { intros cur Hcur _. injection Hcur as <-. reflexivity. }
  split; [exact Hwf|]. split; [exact Hwc|]. split; [reflexivity|].
  exact (proj1 (proj2 (state_stays_stable (with_fileio small_quota_fs buyable_world)
                         (Some "out-of-stock")) Hwf Hwc)).
Defined.

(** C10 as stated fails: a status with a carriage return inside has no
    white space at either end, is written and read without error, and
    comes back with a line feed in place of the carriage return. *)
Lemma save_load_roundtrip_counterexample :
  ~ (forall (w : World) fs (status : string),
       no_outer_space status ->
       writable w status = true ->
       readable w = true ->
       res (load_state w (file (save_state w status fs))) = Ok status).
Proof.
  intros H.
  assert (no_outer_space cr_inside) as Hsp by (split; reflexivity).
  specialize (H buyable_world None cr_inside Hsp eq_refl eq_refl).
  discriminate H.
Qed.

Lemma save_load_roundtrip_witness :
  no_outer_space "in-stock"
  /\ contains CR "in-stock" = false
  /\ writable buyable_world "in-stock" = true
  /\ readable buyable_world = true
  /\ res (load_state buyable_world
            (file (save_state buyable_world "in-stock" (Some "out-of-stock"))))
     = Ok "in-stock".
Proof.
  assert (no_outer_space "in-stock") as Hsp by (split; reflexivity).
  split; [exact Hsp|]. repeat (split; [reflexivity|]).
  exact (save_load_roundtrip buyable_world "in-stock" (Some "out-of-stock")
           Hsp eq_refl eq_refl eq_refl).
Defined.

(** ** The scenarios of the specification (section 8) *)

(** Prior out-of-stock, "Add to Cart" visible and enabled, no "Sold Out"
    alert: in-stock, one message sent, new state in-stock. *)
Example scenario_back_in_stock :
  let r := buttermilk_checker_v2_function buyable_world (Some "out-of-stock") in
  res r = Ok success_message
  /\ file r = Some "in-stock"
  /\ List.length (filter is_send_call (trace r)) = 1%nat.
Proof. repeat split. Qed.

(** Prior in-stock, "Sold Out" alert visible: out-of-stock, no
    notification, new state out-of-stock. *)
Example scenario_sold_out :
  let r := buttermilk_checker_v2_function sold_out_world (Some "in-stock") in
  res r = Ok success_message
  /\ file r = Some "out-of-stock"
  /\ notification_fired (trace r) = false.
Proof. repeat split. Qed.

(** The navigation times out: success message, state unchanged. *)
Example scenario_timeout :
  let r := buttermilk_checker_v2_function
             (with_browser_do stalling_browser buyable_world) (Some "in-stock") in
  res r = Ok success_message /\ file r = Some "in-stock".
Proof. repeat split. Qed.

(** Neither alert nor button nor undeliverable wording: out-of-stock. *)
Example scenario_no_signal :
  res (get_stock_status_playwright (world_showing blank_page)
         "https://shop.amul.com/" None) = Ok (Some "out-of-stock").
Proof. reflexivity. Qed.

(** First run, no state file: the prior status counts as out-of-stock. *)
Example scenario_first_run :
  let r := buttermilk_checker_v2_function buyable_world None in
  notification_fired (trace r) = true /\ file r = Some "in-stock".
Proof. repeat split. Qed.

(** A state file left empty by a cut-short write hides the next
    transition: the product comes back in stock and nothing is sent. *)
Example scenario_empty_state_file :
  let r := buttermilk_checker_v2_function buyable_world (Some "") in
  notification_fired (trace r) = false /\ file r = Some "in-stock".
Proof. repeat split. Qed.

(** * Further properties of the code *)

(** ** Counting and placing calls *)

Lemma filter_none {A} (T U : A -> bool) (l : list A) :
  (forall c, T c = true -> U c = false) ->
  forallb T l = true -> filter U l = [].
Proof.
  intros HTU. induction l as [|c l IH]; simpl; [reflexivity|].
  intros H. apply andb_true_iff in H as [Hc Hl].
  now rewrite (HTU c Hc), (IH Hl).
Qed.

Lemma count_calls_app (T : call -> bool) (l l' : list call) :
  count_calls T (l ++ l') = (count_calls T l + count_calls T l')%nat.
Proof. unfold count_calls. now rewrite filter_app, length_app. Qed.

Lemma count_calls_none (T U : call -> bool) (l : list call) :
  (forall c, T c = true -> U c = false) ->
  forallb T l = true -> count_calls U l = 0%nat.
Proof. intros HTU H. unfold count_calls. now rewrite (filter_none T U l HTU H). Qed.

(** ** The notifier, step by step *)

Section NotifierSteps.

Variable w : World.
Variable name : string.

#[local] Notation "'connect'" :=
  (Connect (SMTP_SERVER (config w)) (SMTP_PORT (config w))).
#[local] Notation "'login'" :=
  (Login (SENDER_EMAIL (config w)) (SENDER_PASSWORD (config w))).

(** X1. The notifier makes no call at all when the message cannot be
    composed, as when the product name or a configured address has a line
    break inside.  With the message composed it logs in only on a session
    that [starttls] upgraded, hands the message over only after the login
    was accepted, and says [QUIT] exactly when the connection was made:
    once, as its last call; when the connection is refused it makes no
    other call. *)
Theorem smtp_steps_in_order fs :
  let t := trace (send_email_notification w name fs) in
  (composable w name = false -> t = [])
  /\ (multiline (Subject (draft_message w name))
      || multiline (SENDER_EMAIL (config w))
      || multiline (RECIPIENT_EMAIL (config w)) = true -> t = [])
  /\ (forall u p, In (CSmtp (Login u p)) t ->
                  smtp w connect = Ok tt /\ smtp w StartTLS = Ok tt)
  /\ (forall m, In (CSmtp (SendMessage m)) t ->
                composable w name = true
                /\ smtp w connect = Ok tt /\ smtp w StartTLS = Ok tt
                /\ smtp w login = Ok tt)
  /\ (composable w name = true -> is_ok (smtp w connect) = true ->
      List.last t (CSmtp connect) = CSmtp Quit /\ count_calls is_quit_call t = 1%nat)
  /\ (composable w name = true -> is_ok (smtp w connect) = false ->
      t = [CSmtp connect]).
Proof.
  intros t. subst t.
  split; [intros Hc; now rewrite notifier_trace, Hc|].
  split; [intros Hm; now rewrite notifier_trace, (compose_message_multiline w name Hm)|].
  rewrite notifier_trace.
  destruct (composable w name).
  2:{ repeat split; try discriminate; intros; contradiction. }
  destruct (smtp w connect) as [[]|e0], (smtp w StartTLS) as [[]|e1],
    (smtp w login) as [[]|e2]; simpl;
    (split; [|split; [|split]]);
    try (intros u p Hin; repeat destruct Hin as [Hin|Hin];
         try discriminate Hin; try contradiction; now auto);
    try (intros m Hin; repeat destruct Hin as [Hin|Hin];
         try discriminate Hin; try contradiction; now auto);
    try (intros _ _; now split);
    try (intros _; discriminate); try (intros _ _; reflexivity).
Qed.

(** X2. One notification hands at most one message to the relay, and that
    message is the composed one: the fixed subject around the product
    name, from the configured sender to the configured recipient. *)
Theorem one_message_as_composed fs :
  (count_calls is_send_call (trace (send_email_notification w name fs)) <= 1)%nat
  /\ (forall m, In (CSmtp (SendMessage m)) (trace (send_email_notification w name fs)) ->
                Subject m = "Stock Alert: " ++ name ++ " is back in stock!"
                /\ From m = SENDER_EMAIL (config w)
                /\ To m = RECIPIENT_EMAIL (config w)).
Proof.
  rewrite notifier_trace.
  destruct (composable w name).
  2:{ split; [apply le_0_n|]. intros m []. }
  destruct (smtp w connect) as [[]|e0]; simpl.
  - destruct (smtp w StartTLS) as [[]|e1]; simpl.
    + destruct (smtp w login) as [[]|e2]; simpl.
      * split; [apply le_n|].
        intros m [H|[H|[H|[H|[H|[]]]]]]; try discriminate H.
        injection H as <-. now repeat split.
      * split; [apply le_0_n|]. intros m [H|[H|[H|[H|[]]]]]; discriminate H.
    + split; [apply le_0_n|]. intros m [H|[H|[H|[]]]]; discriminate H.
  - split; [apply le_0_n|]. intros m [H|[]]; discriminate H.
Qed.

End NotifierSteps.

(** ** Opening the pincode modal *)

Section Modal.

Variable w : World.

(** The loop over the trigger labels returns whenever the counts do. *)
Lemma try_candidates_returns (cands : list string) :
  (forall txt, In txt cands -> is_ok (browser_count w (CandidateCount txt)) = true) ->
  forall fs, exists b, res (try_candidates w cands fs) = Ok b.
Proof.
  induction cands as [|txt rest IH]; intros Hc fs; simpl.
  - now eexists.
  - assert (is_ok (browser_count w (CandidateCount txt)) = true) as Htxt
        by (apply Hc; now left).
    assert (forall t, In t rest -> is_ok (browser_count w (CandidateCount t)) = true)
      as Hrest by (intros t Ht; apply Hc; now right).
    unfold bind, count, do_, extern, try_except. simpl.
    destruct (browser_count w (CandidateCount txt)) as [n|e]; [|discriminate].
    simpl. destruct (n >? 0)%Z; simpl.
    + destruct (browser_do w (ClickCandidate txt)) as [[]|e1]; simpl.
      * destruct (browser_do w (WaitHeading txt)) as [[]|e2]; simpl.
        -- now eexists.
        -- destruct (IH Hrest fs) as [b Hb]. rewrite Hb. now eexists.
      * destruct (IH Hrest fs) as [b Hb]. rewrite Hb. now eexists.
    + destruct (IH Hrest fs) as [b Hb]. rewrite Hb. now eexists.
Qed.

(** X3. [_open_pincode_modal] returns normally whenever the visibility
    query, the counts and the last short wait answer normally: no click
    and no wait for the heading can make it fail. *)
Theorem open_modal_survives_clicks fs :
  is_ok (browser_ask w HeadingVisible) = true ->
  (forall txt, In txt candidates ->
               is_ok (browser_count w (CandidateCount txt)) = true) ->
  is_ok (browser_count w LocationCount) = true ->
  is_ok (browser_do w WaitGrace) = true ->
  res (_open_pincode_modal w fs) = Ok tt.
Proof.
  intros Hh Hc Hl Hg.
  unfold _open_pincode_modal. remember candidates as cands eqn:Ecands.
  unfold bind at 1. unfold ask, extern. cbn [res file trace].
  destruct (browser_ask w HeadingVisible) as [[|]|e]; [reflexivity| |discriminate].
  cbn [res]. destruct (try_candidates_returns cands Hc fs) as [b Hb].
  unfold bind at 1. rewrite Hb. cbn [res].
  destruct (try_candidates_quiet w cands fs) as [-> _].
  destruct b; [reflexivity|].
  unfold bind, count, do_, extern, try_except. cbn [res file trace].
  destruct (browser_count w LocationCount) as [n|e]; [|discriminate].
  destruct (browser_do w WaitGrace) as [[]|e]; [|discriminate].
  destruct (n >? 0)%Z; cbn [res file trace]; [|reflexivity].
  destruct (browser_do w ClickLocation) as [[]|e1]; cbn [res file trace]; [|reflexivity].
  now destruct (browser_do w WaitAfterLocation) as [[]|e2].
Qed.

(** Only labels of the list that are found on the page get clicked. *)
Lemma try_candidates_clicks (cands : list string) :
  forall fs txt,
    In (CBrowser (ClickCandidate txt)) (trace (try_candidates w cands fs)) ->
    In txt cands
    /\ exists n, browser_count w (CandidateCount txt) = Ok n /\ (n > 0)%Z.
Proof.
  induction cands as [|t rest IH]; intros fs txt Hin; simpl in Hin; [destruct Hin|].
  unfold bind, count, do_, extern, try_except in Hin. simpl in Hin.
  destruct (browser_count w (CandidateCount t)) as [n|e] eqn:Hn; simpl in Hin.
  2:{ destruct Hin as [H|[]]. discriminate H. }
  destruct Hin as [H|Hin]; [discriminate H|].
  assert (forall fs', In (CBrowser (ClickCandidate txt)) (trace (try_candidates w rest fs')) ->
            In txt (t :: rest)
            /\ exists n, browser_count w (CandidateCount txt) = Ok n /\ (n > 0)%Z)
    as Hrest.
  { intros fs' H. destruct (IH fs' txt H) as [H1 H2]. split; [now right|exact H2]. }
  destruct (n >? 0)%Z eqn:Hpos; simpl in Hin.
  - assert (In t (t :: rest)
            /\ exists n, browser_count w (CandidateCount t) = Ok n /\ (n > 0)%Z)
      as Hhere.
    { split; [now left|]. exists n. split; [exact Hn|]. now apply Z.gtb_gt. }
    destruct (browser_do w (ClickCandidate t)) as [[]|e1]; simpl in Hin.
    + destruct (browser_do w (WaitHeading t)) as [[]|e2]; simpl in Hin.
      * destruct Hin as [H|[H|[]]]; [|discriminate H].
        injection H as <-. exact Hhere.
      * destruct Hin as [H|[H|Hin]]; [|discriminate H|].
        -- injection H as <-. exact Hhere.
        -- now apply (Hrest fs).
    + destruct Hin as [H|Hin].
      * injection H as <-. exact Hhere.
      * now apply (Hrest fs).
  - now apply (Hrest fs).
Qed.

(** When the loop runs out, every trigger has failed. *)
Lemma try_candidates_exhausted (cands : list string) :
  forall fs, res (try_candidates w cands fs) = Ok false ->
             forall txt, In txt cands -> trigger_fails w txt.
Proof.
  induction cands as [|t rest IH]; intros fs Hres txt Hin; [destruct Hin|].
  simpl in Hres. unfold bind, count, do_, extern, try_except in Hres. simpl in Hres.
  destruct (browser_count w (CandidateCount t)) as [n|e] eqn:Hn; simpl in Hres;
    [|discriminate].
  destruct (n >? 0)%Z eqn:Hpos; simpl in Hres.
  - destruct (browser_do w (ClickCandidate t)) as [[]|e1] eqn:Hc; simpl in Hres.
    + destruct (browser_do w (WaitHeading t)) as [[]|e2] eqn:Hw; simpl in Hres;
        [discriminate|].
      destruct Hin as [<-|Hin]; [|now apply (IH fs)].
      exists n. split; [exact Hn|]. right. right. now rewrite Hw.
    + destruct Hin as [<-|Hin]; [|now apply (IH fs)].
      exists n. split; [exact Hn|]. right. left. now rewrite Hc.
  - destruct Hin as [<-|Hin]; [|now apply (IH fs)].
    exists n. split; [exact Hn|]. left.
    rewrite Z.gtb_ltb in Hpos. now apply Z.ltb_ge in Hpos.
Qed.

Lemma try_candidates_no_location (cands : list string) :
  quiet (fun c => match c with CBrowser ClickLocation => false | _ => true end)
        (try_candidates w cands).
Proof.
  induction cands as [|txt rest IH]; simpl.
  - apply quiet_ret.
  - unfold count, do_. py_struct.
Qed.

(** X4. [_open_pincode_modal] clicks a trigger only when the heading is
    not yet visible, and only a label of its list that was found on the
    page. *)
Theorem only_found_triggers_clicked fs txt :
  In (CBrowser (ClickCandidate txt)) (trace (_open_pincode_modal w fs)) ->
  browser_ask w HeadingVisible = Ok false
  /\ In txt candidates
  /\ exists n, browser_count w (CandidateCount txt) = Ok n /\ (n > 0)%Z.
Proof.
  unfold _open_pincode_modal. remember candidates as cands eqn:Ecands.
  unfold bind at 1. unfold ask, extern. cbn [res file trace].
  destruct (browser_ask w HeadingVisible) as [[|]|e]; cbn [res file trace].
  - intros [H|[]]. discriminate H.
  - intros [H|Hin]; [discriminate H|]. split; [reflexivity|].
    cbn [app] in Hin. unfold bind at 1 in Hin.
    destruct (res (try_candidates w cands fs)) as [b|e]; cbn [trace] in Hin.
    + apply in_app_or in Hin as [Hin|Hin];
        [exact (try_candidates_clicks cands fs txt Hin)|].
      exfalso. destruct b; [destruct Hin|].
      unfold bind, count, do_, extern, try_except in Hin. cbn [res file trace] in Hin.
      destruct (browser_count w LocationCount) as [n|e]; cbn [res file trace] in Hin.
      * destruct (n >? 0)%Z; cbn [res file trace] in Hin.
        -- destruct (browser_do w ClickLocation) as [[]|e1]; cbn [res file trace] in Hin;
             [destruct (browser_do w WaitAfterLocation) as [[]|e2];
              cbn [res file trace] in Hin|];
             simpl in Hin; intuition discriminate.
        -- simpl in Hin; intuition discriminate.
      * simpl in Hin; intuition discriminate.
    + exact (try_candidates_clicks cands fs txt Hin).
  - intros [H|[]]. discriminate H.
Qed.

(** X5. The location button is a last resort: it is clicked only when the
    heading is not visible, every trigger of the list has failed (not on
    the page, or its click or its wait raised) and the button is on the
    page. *)
Theorem location_button_is_last_resort fs :
  In (CBrowser ClickLocation) (trace (_open_pincode_modal w fs)) ->
  browser_ask w HeadingVisible = Ok false
  /\ (forall txt, In txt candidates -> trigger_fails w txt)
  /\ exists n, browser_count w LocationCount = Ok n /\ (n > 0)%Z.
Proof.
  unfold _open_pincode_modal. remember candidates as cands eqn:Ecands.
  unfold bind at 1. unfold ask, extern. cbn [res file trace].
  destruct (browser_ask w HeadingVisible) as [[|]|e]; cbn [res file trace].
  - intros [H|[]]. discriminate H.
  - intros [H|Hin]; [discriminate H|]. split; [reflexivity|].
    destruct (try_candidates_no_location cands fs) as [Hfile Hnone].
    assert (~ In (CBrowser ClickLocation) (trace (try_candidates w cands fs))) as Hnot
        by (now apply (not_in_of_forallb _ _ _ Hnone)).
    cbn [app] in Hin. unfold bind at 1 in Hin.
    destruct (res (try_candidates w cands fs)) as [b|e] eqn:Hb; cbn [trace] in Hin;
      [|contradiction].
    apply in_app_or in Hin as [Hin|Hin]; [contradiction|].
    destruct b; [destruct Hin|].
    split; [exact (try_candidates_exhausted cands fs Hb)|].
    unfold bind, count, do_, extern, try_except in Hin. cbn [res file trace] in Hin.
    destruct (browser_count w LocationCount) as [n|e]; cbn [res file trace] in Hin.
    + exists n. split; [reflexivity|].
      destruct (n >? 0)%Z eqn:Hpos; [now apply Z.gtb_gt|].
      exfalso. cbn [res file trace] in Hin. simpl in Hin.
      destruct (browser_do w WaitGrace); simpl in Hin; intuition discriminate.
    + exfalso. simpl in Hin. intuition discriminate.
  - intros [H|[]]. discriminate H.
Qed.

End Modal.

(** ** Entering the pincode *)

Section EnterPincode.

Variable w : World.
Variable pincode : string.

(** The calls on the input located with scope [s], as far as they get. *)
Lemma input_steps_trace (s : bool) fs :
  trace ((do_ w (InputWaitVisible s) ;;
          do_ w (InputFill s pincode) ;;
          do_ w (InputPressEnter s) ;;
          do_ w WaitNetworkIdle ;;
          do_ w WaitSettle) fs) =
    CBrowser (InputWaitVisible s) ::
    (if is_ok (browser_do w (InputWaitVisible s)) then
       CBrowser (InputFill s pincode) ::
       (if is_ok (browser_do w (InputFill s pincode)) then
          CBrowser (InputPressEnter s) ::
          (if is_ok (browser_do w (InputPressEnter s)) then
             CBrowser WaitNetworkIdle ::
             (if is_ok (browser_do w WaitNetworkIdle) then [CBrowser WaitSettle] else [])
           else [])
        else [])
     else []).
Proof.
  unfold bind, do_, extern. cbn [res file trace].
  destruct (browser_do w (InputWaitVisible s)) as [[]|e1]; [|reflexivity].
  destruct (browser_do w (InputFill s pincode)) as [[]|e2]; [|reflexivity].
  destruct (browser_do w (InputPressEnter s)) as [[]|e3]; [|reflexivity].
  destruct (browser_do w WaitNetworkIdle) as [[]|e4]; reflexivity.
Qed.

(** The calls of [_enter_pincode]: the two queries that settle the scope,
    then the steps on the input. *)
Lemma enter_pincode_trace fs :
  exists queries steps,
    trace (_enter_pincode w pincode fs) = (queries ++ steps)%list
    /\ forallb (fun c => match c with CCount _ | CAsk _ => true | _ => false end)
               queries = true
    /\ (steps = []
        \/ steps = trace ((do_ w (InputWaitVisible (modal_scope w)) ;;
                           do_ w (InputFill (modal_scope w) pincode) ;;
                           do_ w (InputPressEnter (modal_scope w)) ;;
                           do_ w WaitNetworkIdle ;;
                           do_ w WaitSettle) fs)).
Proof.
  unfold _enter_pincode, modal_scope.
  unfold bind at 1. unfold count at 1. unfold extern at 1. cbn [res file trace].
  destruct (browser_count w ModalCount) as [n|e0]; cbn [res file trace].
  2:{ exists [CCount ModalCount], []. rewrite app_nil_r. auto. }
  destruct (n >? 0)%Z; cbn [andb].
  - unfold bind at 1. unfold ask at 1. unfold extern at 1. cbn [res file trace].
    destruct (browser_ask w ModalVisible) as [b|e1]; cbn [res file trace].
    + exists [CCount ModalCount; CAsk ModalVisible]. eexists.
      split; [reflexivity|]. split; [reflexivity|]. now right.
    + exists [CCount ModalCount; CAsk ModalVisible], []. auto.
  - unfold bind at 1. cbn [res file trace ret].
    exists [CCount ModalCount]. eexists.
    split; [reflexivity|]. split; [reflexivity|]. now right.
Qed.

(** X6. [_enter_pincode] works on one input, the one inside the modal
    exactly when the modal is on the page and visible; it types nothing
    but the pincode it was given, types it only after the input became
    visible, and presses Enter only after the pincode was typed. *)
Theorem pincode_typed_in_order fs :
  let t := trace (_enter_pincode w pincode fs) in
  (forall s, In (CBrowser (InputWaitVisible s)) t -> s = modal_scope w)
  /\ (forall s p, In (CBrowser (InputFill s p)) t ->
                  p = pincode /\ s = modal_scope w
                  /\ browser_do w (InputWaitVisible s) = Ok tt)
  /\ (forall s, In (CBrowser (InputPressEnter s)) t ->
                s = modal_scope w
                /\ browser_do w (InputWaitVisible s) = Ok tt
                /\ browser_do w (InputFill s pincode) = Ok tt).
Proof.
  intros t. subst t.
  destruct (enter_pincode_trace fs) as (queries & steps & -> & Hq & Hsteps).
  assert (forall a, ~ In (CBrowser a) queries) as Hnot.
  { intros a. now apply (not_in_of_forallb _ _ _ Hq). }
  destruct Hsteps as [-> | ->].
  { rewrite app_nil_r. repeat split; intros; exfalso; eapply Hnot; eassumption. }
  rewrite input_steps_trace. set (sc := modal_scope w).
  destruct (browser_do w (InputWaitVisible sc)) as [[]|e1] eqn:H1; cbn [is_ok].
  2:{ split; [|split]; intros; apply in_app_or in H as [H|H];
        try (exfalso; eapply Hnot; eassumption);
        destruct H as [H|[]]; try discriminate H.
      now injection H as <-. }
  destruct (browser_do w (InputFill sc pincode)) as [[]|e2] eqn:H2; cbn [is_ok].
  2:{ split; [|split]; intros; apply in_app_or in H as [H|H];
        try (exfalso; eapply Hnot; eassumption);
        destruct H as [H|[H|[]]]; try discriminate H.
      - now injection H as <-.
      - injection H as <- <-. auto. }
  split; [|split]; intros; apply in_app_or in H as [H|H];
    try (exfalso; eapply Hnot; eassumption).
  - destruct H as [H|[H|[H|H]]]; try discriminate H.
    + now injection H as <-.
    + exfalso. destruct (is_ok (browser_do w (InputPressEnter sc)));
        [destruct H as [H|H]; [discriminate H|]|destruct H].
      destruct (is_ok (browser_do w WaitNetworkIdle)); simpl in H;
        intuition discriminate.
  - destruct H as [H|[H|[H|H]]]; try discriminate H.
    + injection H as <- <-. auto.
    + exfalso. destruct (is_ok (browser_do w (InputPressEnter sc)));
        [destruct H as [H|H]; [discriminate H|]|destruct H].
      destruct (is_ok (browser_do w WaitNetworkIdle)); simpl in H;
        intuition discriminate.
  - destruct H as [H|[H|[H|H]]]; try discriminate H.
    + injection H as <-. auto.
    + exfalso. destruct (is_ok (browser_do w (InputPressEnter sc)));
        [destruct H as [H|H]; [discriminate H|]|destruct H].
      destruct (is_ok (browser_do w WaitNetworkIdle)); simpl in H;
        intuition discriminate.
Qed.

End EnterPincode.

(** ** The browser session of a probe *)

Lemma count_calls_cons (T : call -> bool) (c : call) (l : list call) :
  count_calls T (c :: l) = ((if T c then 1 else 0) + count_calls T l)%nat.
Proof. unfold count_calls. simpl. now destruct (T c). Qed.

Section ProberSession.

Variable w : World.

Lemma try_candidates_page_calls (cands : list string) :
  quiet is_page_call (try_candidates w cands).
Proof.
  induction cands as [|txt rest IH]; simpl.
  - apply quiet_ret.
  - unfold count, do_. py_struct.
Qed.

Lemma page_flow_page_calls (url : string) : quiet is_page_call (page_flow w url).
Proof.
  pose proof try_candidates_page_calls.
  unfold page_flow, navigate, _open_pincode_modal, _enter_pincode, classify,
    ask, count, do_.
  py_struct.
Qed.

(** X7. The browser is closed exactly once whenever it was launched and
    its page opened, whatever the page flow did, and never otherwise; the
    Playwright driver is stopped exactly once whenever it was started. *)
Theorem browser_closed_once (url : string) fs :
  count_calls is_close_call (trace (get_stock_status_playwright w url fs)) =
    (if is_ok (browser_do w StartPlaywright) && is_ok (browser_do w Launch)
        && is_ok (browser_do w NewPage) then 1 else 0)%nat
  /\ count_calls is_stop_call (trace (get_stock_status_playwright w url fs)) =
       (if is_ok (browser_do w StartPlaywright) then 1 else 0)%nat.
Proof.
  rewrite prober_formula. cbn [trace].
  destruct (page_flow_page_calls url fs) as [_ Hpage].
  assert (count_calls is_close_call (trace (page_flow w url fs)) = 0%nat) as Hc
      by (apply (count_calls_none is_page_call); [now intros [[]| | | |]|exact Hpage]).
  assert (count_calls is_stop_call (trace (page_flow w url fs)) = 0%nat) as Hs
      by (apply (count_calls_none is_page_call); [now intros [[]| | | |]|exact Hpage]).
  destruct (browser_do w StartPlaywright) as [[]|e0]; cbn [is_ok andb];
    [|now split].
  destruct (browser_do w Launch) as [[]|e1]; cbn [is_ok andb]; [|now split].
  destruct (browser_do w NewPage) as [[]|e2]; cbn [is_ok andb]; [|now split].
  rewrite !count_calls_cons, !count_calls_app, !count_calls_cons, !count_calls_app,
    Hc, Hs.
  now destruct (is_ok (res (page_flow w url fs))).
Qed.

(** X8. A debug screenshot is attempted exactly when the page was opened
    and an exception escaped the page flow: once then, and never after a
    page flow that returned its classification. *)
Theorem screenshot_on_failure_only (url : string) fs :
  count_calls is_screenshot_call (trace (get_stock_status_playwright w url fs)) =
    (if is_ok (browser_do w StartPlaywright) && is_ok (browser_do w Launch)
        && is_ok (browser_do w NewPage)
        && negb (is_ok (res (page_flow w url fs)))
     then 1 else 0)%nat.
Proof.
  rewrite prober_formula. cbn [trace].
  destruct (page_flow_page_calls url fs) as [_ Hpage].
  assert (count_calls is_screenshot_call (trace (page_flow w url fs)) = 0%nat) as Hc
      by (apply (count_calls_none is_page_call); [now intros [[]| | | |]|exact Hpage]).
  destruct (browser_do w StartPlaywright) as [[]|e0]; cbn [is_ok andb];
    [|reflexivity].
  destruct (browser_do w Launch) as [[]|e1]; cbn [is_ok andb]; [|reflexivity].
  destruct (browser_do w NewPage) as [[]|e2]; cbn [is_ok andb]; [|reflexivity].
  rewrite !count_calls_cons, !count_calls_app, !count_calls_cons, !count_calls_app, Hc.
  now destruct (is_ok (res (page_flow w url fs))).
Qed.

(** What a returned classification says about the answers of the page. *)
Lemma classify_inv fs s :
  res (classify w fs) = Ok (Some s) ->
  (s = "in-stock" ->
   browser_ask w SoldOutVisible = Ok false
   /\ (exists n, browser_count w AddToCartCount = Ok n /\ (n > 0)%Z)
   /\ browser_ask w AddToCartVisible = Ok true
   /\ browser_ask w AddToCartEnabled = Ok true)
  /\ (s = "out-of-stock" ->
      browser_ask w SoldOutVisible = Ok true
      \/ (browser_ask w SoldOutVisible = Ok false
          /\ is_ok (browser_count w UndeliverableCount) = true)).
Proof.
  unfold classify, bind, ask, count, extern. cbn [res file trace].
  destruct (browser_ask w SoldOutVisible) as [[|]|e0]; cbn [res file trace].
  - intros [= <-]. split; [discriminate|]. now left.
  - destruct (browser_count w AddToCartCount) as [n|e1]; cbn [res file trace];
      [|discriminate].
    destruct (n >? 0)%Z eqn:Hn; cbn [res file trace ret].
    + destruct (browser_ask w AddToCartVisible) as [[|]|e2]; cbn [res file trace ret];
        [| |discriminate].
      * destruct (browser_ask w AddToCartEnabled) as [[|]|e3];
          cbn [res file trace ret]; [| |discriminate].
        -- intros [= <-]. split; [|discriminate]. intros _.
           repeat split. exists n. split; [reflexivity|now apply Z.gtb_gt].
        -- destruct (browser_count w UndeliverableCount) as [k|e4];
             cbn [res file trace ret]; [|discriminate].
           destruct (k >? 0)%Z; intros [= <-]; (split; [discriminate|]);
             intros _; right; now split.
      * destruct (browser_count w UndeliverableCount) as [k|e4];
          cbn [res file trace ret]; [|discriminate].
        destruct (k >? 0)%Z; intros [= <-]; (split; [discriminate|]);
          intros _; right; now split.
    + destruct (browser_count w UndeliverableCount) as [k|e4];
        cbn [res file trace ret]; [|discriminate].
      destruct (k >? 0)%Z; intros [= <-]; (split; [discriminate|]);
        intros _; right; now split.
  - discriminate.
Qed.

(** X9. The prober says in-stock only when the page showed no "Sold Out"
    alert and an "Add to Cart" button that is there, visible and enabled,
    and every step of the session went through. *)
Theorem in_stock_is_sound (url : string) fs :
  res (get_stock_status_playwright w url fs) = Ok (Some "in-stock") ->
  browser_ask w SoldOutVisible = Ok false
  /\ (exists n, browser_count w AddToCartCount = Ok n /\ (n > 0)%Z)
  /\ browser_ask w AddToCartVisible = Ok true
  /\ browser_ask w AddToCartEnabled = Ok true
  /\ browser_do w CloseBrowser = Ok tt
  /\ browser_do w StopPlaywright = Ok tt.
Proof.
  intros H.
  destruct (prober_status_inv w url fs _ H) as (_ & _ & _ & Hflow & Hclose & Hstop).
  unfold page_flow, bind in Hflow.
  destruct (res (navigate w url fs)) as [[]|e]; cbn [res] in Hflow; [|discriminate].
  destruct (classify_inv _ _ Hflow) as [Hin _].
  destruct (Hin eq_refl) as (H1 & H2 & H3 & H4).
  now repeat split.
Qed.

End ProberSession.

(** ** Computations that agree step by step *)

Lemma bind_ext {A B} (m m' : M A) (k k' : A -> M B) fs :
  m fs = m' fs -> (forall a fs', k a fs' = k' a fs') ->
  bind m k fs = bind m' k' fs.
Proof.
  intros Hm Hk. unfold bind. rewrite Hm.
  destruct (res (m' fs)); [now rewrite Hk|reflexivity].
Qed.

Lemma bind_res_ext {A B} (m m' : M A) (k k' : A -> M B) fs :
  m fs = m' fs -> (forall a fs', res (k a fs') = res (k' a fs')) ->
  res (bind m k fs) = res (bind m' k' fs).
Proof.
  intros Hm Hk. unfold bind. rewrite Hm.
  destruct (res (m' fs)); [apply Hk|reflexivity].
Qed.

(** ** The undeliverable wording *)

Section Undeliverable.

Variable w : World.
Variable n : Z.

#[local] Notation "'w''" := (with_undeliverable n w).

Lemma try_candidates_same (cands : list string) :
  forall fs, try_candidates w' cands fs = try_candidates w cands fs.
Proof.
  induction cands as [|txt rest IH]; intros fs; [reflexivity|].
  cbn [try_candidates]. apply bind_ext; [reflexivity|].
  intros k fs'. destruct (k >? 0)%Z; [|apply IH].
  apply bind_ext; [reflexivity|].
  intros [|] fs''; [reflexivity|apply IH].
Qed.

Lemma open_modal_same fs : _open_pincode_modal w' fs = _open_pincode_modal w fs.
Proof.
  unfold _open_pincode_modal. apply bind_ext; [reflexivity|].
  intros [|] fs1; [reflexivity|].
  apply bind_ext; [apply try_candidates_same|].
  intros [|] fs2; reflexivity.
Qed.

Lemma navigate_same url fs : navigate w' url fs = navigate w url fs.
Proof.
  unfold navigate. apply bind_ext; [reflexivity|]. intros _ fs1.
  apply bind_ext; [apply open_modal_same|]. intros _ fs2. reflexivity.
Qed.

(** The classification with [n] texts of undeliverable wording on the
    page, in terms of the other answers. *)
Lemma classify_res_same fs :
  res (classify w' fs) =
    match browser_ask w SoldOutVisible with
    | Ok true => Ok (Some "out-of-stock")
    | Ok false =>
        match browser_count w AddToCartCount with
        | Ok k =>
            match (if (k >? 0)%Z then browser_ask w AddToCartVisible else Ok false) with
            | Ok v =>
                match (if v then browser_ask w AddToCartEnabled else Ok false) with
                | Ok true => Ok (Some "in-stock")
                | Ok false => Ok (Some "out-of-stock")
                | Raise e => Raise e
                end
            | Raise e => Raise e
            end
        | Raise e => Raise e
        end
    | Raise e => Raise e
    end.
Proof.
  unfold classify, bind, ask, count, extern.
  cbn [res file trace ret browser_ask browser_count with_undeliverable].
  destruct (browser_ask w SoldOutVisible) as [[|]|e0]; cbn [res file trace ret];
    [reflexivity| |reflexivity].
  destruct (browser_count w AddToCartCount) as [k|e1]; cbn [res file trace ret];
    [|reflexivity].
  destruct (k >? 0)%Z; cbn [res file trace ret].
  - destruct (browser_ask w AddToCartVisible) as [[|]|e2]; cbn [res file trace ret];
      [| |reflexivity].
    + destruct (browser_ask w AddToCartEnabled) as [[|]|e3]; cbn [res file trace ret];
        [reflexivity| |reflexivity].
      now destruct (n >? 0)%Z.
    + now destruct (n >? 0)%Z.
  - now destruct (n >? 0)%Z.
Qed.

End Undeliverable.

(** X10. The undeliverable wording never changes what the prober returns:
    with the rest of the browser's answers the same, the result is the
    same for any number of matching texts on the page, none included. *)
Theorem undeliverable_wording_is_idle (w : World) (n n' : Z) (url : string) fs :
  res (get_stock_status_playwright (with_undeliverable n w) url fs)
  = res (get_stock_status_playwright (with_undeliverable n' w) url fs).
Proof.
  rewrite !prober_formula. cbn [res browser_do with_undeliverable].
  assert (res (page_flow (with_undeliverable n w) url fs)
          = res (page_flow (with_undeliverable n' w) url fs)) as ->.
  { unfold page_flow. apply bind_res_ext.
    - now rewrite !navigate_same.
    - intros _ fs'. now rewrite !classify_res_same. }
  reflexivity.
Qed.

(** ** What [strip] and the text-mode read give *)

Lemma lstrip_head (s : string) :
  match lstrip s with
  | EmptyString => True
  | String c _ => isspace c = false
  end.
Proof.
  induction s as [|c r IH]; simpl; [exact I|].
  destruct (isspace c) eqn:Hc; [exact IH|exact Hc].
Qed.

Lemma rstrip_last (s : string) :
  forall c r, rstrip s = String c r -> isspace (last_char c r) = false.
Proof.
  induction s as [|a t IH]; intros c r; simpl; [discriminate|].
  destruct (rstrip t) as [|c' r'] eqn:Ht.
  - destruct (isspace a) eqn:Ha; [discriminate|]. intros [= <- <-]. exact Ha.
  - intros [= <- <-]. simpl. now apply IH.
Qed.

Lemma rstrip_keeps_head (c : ascii) (r : string) :
  isspace c = false -> rstrip (String c r) = String c (rstrip r).
Proof. intros Hc. simpl. destruct (rstrip r); [now rewrite Hc|reflexivity]. Qed.

Lemma strip_no_outer_space (s : string) : no_outer_space (strip s).
Proof.
  unfold strip. pose proof (lstrip_head s) as Hh.
  destruct (lstrip s) as [|c r]; [exact I|].
  rewrite (rstrip_keeps_head c r Hh). simpl. split; [exact Hh|].
  apply (rstrip_last (String c r)). now apply rstrip_keeps_head.
Qed.

Lemma contains_lstrip (c : ascii) (s : string) :
  contains c s = false -> contains c (lstrip s) = false.
Proof.
  induction s as [|a t IH]; simpl; [easy|]. intros H.
  apply orb_false_iff in H as [Ha Ht].
  destruct (isspace a); [now apply IH|]. simpl. now rewrite Ha, Ht.
Qed.

Lemma contains_rstrip (c : ascii) (s : string) :
  contains c s = false -> contains c (rstrip s) = false.
Proof.
  induction s as [|a t IH]; simpl; [easy|]. intros H.
  apply orb_false_iff in H as [Ha Ht]. specialize (IH Ht).
  destruct (rstrip t) as [|c' r'].
  - destruct (isspace a); [reflexivity|]. simpl. now rewrite Ha.
  - simpl. rewrite Ha. exact IH.
Qed.

(** No carriage return survives the text-mode read. *)
Lemma universal_newlines_no_cr (s : string) :
  contains CR (universal_newlines s) = false
  /\ forall c, contains CR (universal_newlines (String c s)) = false.
Proof.
  induction s as [|a t [IH1 IH2]].
  - split; [reflexivity|]. intros c. simpl.
    destruct (Ascii.eqb c CR) eqn:Hc; simpl; [reflexivity|now rewrite Hc].
  - split; [apply IH2|]. intros c.
    change (universal_newlines (String c (String a t)))
      with (if Ascii.eqb c CR
            then if Ascii.eqb a LF then String LF (universal_newlines t)
                 else String LF (universal_newlines (String a t))
            else String c (universal_newlines (String a t))).
    destruct (Ascii.eqb c CR) eqn:Hc.
    + destruct (Ascii.eqb a LF); cbn [contains];
        [now rewrite IH1|now rewrite (IH2 a)].
    + cbn [contains]. now rewrite Hc, (IH2 a).
Qed.

(** What comes back from a read is trimmed and free of carriage returns. *)
Lemma read_back_trimmed (d : string) :
  no_outer_space (strip (universal_newlines d))
  /\ contains CR (strip (universal_newlines d)) = false.
Proof.
  split; [apply strip_no_outer_space|].
  unfold strip. apply contains_rstrip, contains_lstrip.
  apply universal_newlines_no_cr.
Qed.

Section StoreValues.

Variable w : World.

(** X11. Whatever the state file holds, the status that [load_state]
    returns has no white space at either end and no carriage return in
    it. *)
Theorem loaded_status_is_trimmed fs :
  exists s, res (load_state w fs) = Ok s
            /\ no_outer_space s /\ contains CR s = false.
Proof.
  rewrite load_state_res. eexists. split; [reflexivity|].
  assert (no_outer_space "out-of-stock" /\ contains CR "out-of-stock" = false)
    as Hdefault by (repeat split).
  destruct fs as [d|]; [|exact Hdefault].
  destruct (readable w); [apply read_back_trimmed|exact Hdefault].
Qed.

(** X12. The store is stable under its own output: a status that
    [load_state] returned, given to [save_state] and read again, comes
    back the same, when the file system lets the write and the read
    through. *)
Theorem loaded_status_round_trips fs fs' s :
  res (load_state w fs) = Ok s ->
  writable w s = true ->
  readable w = true ->
  res (load_state w (file (save_state w s fs'))) = Ok s.
Proof.
  intros Hload Hw Hr.
  assert (no_outer_space s /\ contains CR s = false) as [Hsp Hcr].
  { rewrite load_state_res, Hr in Hload. injection Hload as <-.
    destruct fs as [d|]; [apply read_back_trimmed|repeat split]. }
  rewrite save_state_file. unfold saved.
  unfold writable in Hw. apply andb_true_iff in Hw as [-> ->].
  rewrite load_state_res, Hr, (universal_newlines_fixed _ Hcr).
  now rewrite (strip_fixed _ Hsp).
Qed.

End StoreValues.

(** ** A state file with blanks and line ends around the label *)

Lemma isspace_LF : isspace LF = true.
Proof. reflexivity. Qed.

Lemma isspace_CR : isspace CR = true.
Proof. reflexivity. Qed.

(** White space before a text that does not start with a line feed stays
    white space before the same text, read back. *)
Lemma universal_newlines_space_prefix (l : string) :
  (forall t, no_lf_first t -> all_space l = true ->
             exists l', all_space l' = true
                        /\ universal_newlines (l ++ t) = l' ++ universal_newlines t)
  /\ (forall c t, no_lf_first t -> all_space (String c l) = true ->
                  exists l', all_space l' = true
                             /\ universal_newlines (String c l ++ t)
                                = l' ++ universal_newlines t).
Proof.
  induction l as [|a l2 [IH1 IH2]].
  - split.
    + intros t _ _. exists EmptyString. now split.
    + intros c t Ht Hc. cbn [all_space] in Hc. rewrite andb_true_r in Hc.
      cbn [append universal_newlines].
      destruct (Ascii.eqb c CR) eqn:Ec.
      * exists (String LF EmptyString). split; [reflexivity|].
        destruct t as [|c' r']; [reflexivity|].
        cbn [no_lf_first] in Ht. now rewrite Ht.
      * exists (String c EmptyString). split; [cbn; now rewrite Hc|reflexivity].
  - split; [intros t Ht Hl; now apply IH2|].
    intros c t Ht Hc. cbn [all_space] in Hc.
    apply andb_true_iff in Hc as [Hc Hal].
    change (universal_newlines (String c (String a l2) ++ t))
      with (if Ascii.eqb c CR
            then if Ascii.eqb a LF then String LF (universal_newlines (l2 ++ t))
                 else String LF (universal_newlines (String a l2 ++ t))
            else String c (universal_newlines (String a l2 ++ t))).
    assert (all_space l2 = true) as Hl2
        by (cbn [all_space] in Hal; now apply andb_true_iff in Hal as [_ ?]).
    destruct (IH1 t Ht Hl2) as (l1' & Hs1 & E1).
    destruct (IH2 a t Ht Hal) as (l2' & Hs2 & E2).
    destruct (Ascii.eqb c CR).
    + destruct (Ascii.eqb a LF).
      * exists (String LF l1'). split; [cbn; now rewrite Hs1|now rewrite E1].
      * exists (String LF l2'). split; [cbn; now rewrite Hs2|now rewrite E2].
    + exists (String c l2'). split; [cbn; now rewrite Hc, Hs2|now rewrite E2].
Qed.

Lemma universal_newlines_plain_prefix (s r : string) :
  contains CR s = false ->
  universal_newlines (s ++ r) = s ++ universal_newlines r.
Proof.
  induction s as [|c t IH]; [reflexivity|]. cbn [contains]. intros H.
  apply orb_false_iff in H as [Hc Ht].
  cbn [append universal_newlines]. rewrite Hc. now rewrite (IH Ht).
Qed.

Lemma append_empty_r (s : string) : s ++ "" = s.
Proof. induction s as [|c t IH]; [reflexivity|]. cbn. now rewrite IH. Qed.

Lemma universal_newlines_all_space (r : string) :
  all_space r = true -> all_space (universal_newlines r) = true.
Proof.
  intros Hr.
  destruct (proj1 (universal_newlines_space_prefix r) EmptyString I Hr)
    as (l' & Hl' & E).
  rewrite append_empty_r in E. rewrite E. cbn. now rewrite append_empty_r.
Qed.

Lemma lstrip_space_prefix (l x : string) :
  all_space l = true -> lstrip (l ++ x) = lstrip x.
Proof.
  induction l as [|c t IH]; [reflexivity|]. cbn [all_space]. intros H.
  apply andb_true_iff in H as [Hc Ht]. cbn. rewrite Hc. now apply IH.
Qed.

Lemma rstrip_all_space (r : string) : all_space r = true -> rstrip r = "".
Proof.
  induction r as [|c t IH]; [reflexivity|]. cbn [all_space]. intros H.
  apply andb_true_iff in H as [Hc Ht]. cbn. now rewrite (IH Ht), Hc.
Qed.

Lemma rstrip_space_suffix (s r : string) :
  all_space r = true -> rstrip (s ++ r) = rstrip s.
Proof.
  intros Hr. induction s as [|c t IH]; [now apply rstrip_all_space|].
  cbn. now rewrite IH.
Qed.

(** X13. A state file that holds a status with blanks, tabs or line ends
    (LF, CR LF, CR) before and after it reads back as the bare status:
    for every status that is not empty, has no white space at either end
    and no carriage return inside. *)
Theorem padded_status_reads_back (w : World) (l s r : string) :
  all_space l = true ->
  all_space r = true ->
  s <> "" ->
  no_outer_space s ->
  contains CR s = false ->
  readable w = true ->
  res (load_state w (Some (l ++ s ++ r))) = Ok s.
Proof.
  intros Hl Hr Hne Hsp Hcr Hread.
  rewrite load_state_res, Hread. f_equal.
  destruct s as [|c t]; [contradiction|].
  destruct Hsp as [Hc Hlast].
  assert (no_lf_first (String c t ++ r)) as Hfirst.
  { cbn [append no_lf_first]. destruct (Ascii.eqb c LF) eqn:E; [|reflexivity].
    apply Ascii.eqb_eq in E. subst c. now rewrite isspace_LF in Hc. }
  destruct (proj1 (universal_newlines_space_prefix l) _ Hfirst Hl) as (l' & Hl' & ->).
  rewrite (universal_newlines_plain_prefix _ r Hcr).
  unfold strip. rewrite (lstrip_space_prefix l' _ Hl').
  cbn [append lstrip]. rewrite Hc.
  change (String c (t ++ universal_newlines r))
    with (String c t ++ universal_newlines r).
  rewrite (rstrip_space_suffix _ _ (universal_newlines_all_space r Hr)).
  now apply rstrip_fixed.
Qed.

Lemma padded_status_reads_back_witness :
  all_space "  " = true
  /\ all_space (String CR (String LF EmptyString)) = true
  /\ res (load_state buyable_world (Some padded_label)) = Ok "in-stock".
Proof.
  split; [reflexivity|]. split; [reflexivity|].
  apply (padded_status_reads_back buyable_world "  " "in-stock"
           (String CR (String LF EmptyString)));
    try reflexivity; [discriminate|split; reflexivity].
Defined.

(** ** One invocation, and the next *)

Lemma notifier_sends_at_most_once (w : World) (name : string) fs :
  (count_calls is_send_call (trace (send_email_notification w name fs)) <= 1)%nat.
Proof.
  rewrite notifier_trace.
  destruct (composable w name); [|apply le_0_n].
  destruct (is_ok (smtp w (Connect (SMTP_SERVER (config w)) (SMTP_PORT (config w)))));
    [|apply le_0_n].
  destruct (is_ok (smtp w StartTLS)); [|apply le_0_n].
  destruct (is_ok (smtp w (Login (SENDER_EMAIL (config w)) (SENDER_PASSWORD (config w)))));
    [apply le_n|apply le_0_n].
Qed.

Section Invocation.

Variable w : World.

#[local] Notation "'probe'" := (get_stock_status_playwright w (PRODUCT_URL (config w))).
#[local] Notation "'notify'" := (send_email_notification w "Amul High Protein Buttermilk").
#[local] Notation "'cycle'" := (buttermilk_checker_v2_function w).

(** X14. Whatever the browser, the relay and the file system answer, the
    invocation returns the success message: a failed probe, a failed send
    and a failed save all end in the same answer, and the failure string
    is never returned. *)
Theorem invocation_always_reports_success fs :
  res (cycle fs) = Ok success_message
  /\ forall e, res (cycle fs) <> Ok (failure_message e).
Proof.
  rewrite cycle_is_check_cycle, check_cycle_res. split; [reflexivity|].
  intros e H. injection H as H. discriminate H.
Qed.

(** The calls of an invocation, by the part of the program that makes
    them. *)
Lemma cycle_trace_parts fs :
  exists tl tn ts,
    trace (cycle fs) = (trace (probe fs) ++ tl ++ tn ++ ts)%list
    /\ forallb is_read_call tl = true
    /\ (tn = [] \/ tn = trace (notify fs))
    /\ forallb is_write_call ts = true.
Proof.
  destruct (prober_total w (PRODUCT_URL (config w)) fs) as [v Hv].
  assert (v = None \/ exists cur, v = Some cur) as [-> | [cur ->]]
      by (destruct v; eauto).
  - exists [], [], []. rewrite cycle_is_check_cycle.
    rewrite (check_cycle_skipped w fs None Hv I). cbn [trace].
    rewrite app_nil_r. auto.
  - exists (trace (load_state w fs)).
    exists (if String.eqb
                 match fs with
                 | Some d => if readable w then strip (universal_newlines d)
                             else "out-of-stock"
                 | None => "out-of-stock"
                 end "out-of-stock" && String.eqb cur "in-stock"
            then trace (notify fs) else []).
    exists (trace (save_state w cur fs)).
    split; [exact (cycle_trace w fs cur _ Hv (load_state_res w fs))|].
    split; [apply (load_state_quiet w)|].
    split; [destruct (_ && _); auto|].
    apply (save_state_trace w).
Qed.

(** X15. The calls of an invocation come in four blocks: first the
    browser, then the reads of the state file, then the SMTP session,
    last the writes of the state file.  So the browser session is over
    before the state is looked at, and the state is saved after the
    notification was attempted. *)
Theorem invocation_calls_in_order fs :
  exists tb tl tn ts,
    trace (cycle fs) = (tb ++ tl ++ tn ++ ts)%list
    /\ forallb is_browser_call tb = true
    /\ forallb is_read_call tl = true
    /\ forallb is_smtp_call tn = true
    /\ forallb is_write_call ts = true.
Proof.
  destruct (cycle_trace_parts fs) as (tl & tn & ts & E & Hl & Hn & Hs).
  exists (trace (probe fs)), tl, tn, ts.
  split; [exact E|]. split; [apply (prober_quiet w)|]. split; [exact Hl|].
  split; [|exact Hs].
  destruct Hn as [-> | ->]; [reflexivity|apply (notifier_quiet w)].
Qed.

(** X16. One invocation hands at most one message to the relay. *)
Theorem invocation_sends_at_most_once fs :
  (count_calls is_send_call (trace (cycle fs)) <= 1)%nat.
Proof.
  destruct (cycle_trace_parts fs) as (tl & tn & ts & -> & Hl & Hn & Hs).
  rewrite !count_calls_app.
  rewrite (count_calls_none is_browser_call is_send_call);
    [|now intros []|apply (prober_quiet w)].
  rewrite (count_calls_none is_read_call is_send_call tl); [|now intros []|exact Hl].
  rewrite (count_calls_none is_write_call is_send_call ts); [|now intros []|exact Hs].
  rewrite Nat.add_0_r. cbn [Nat.add].
  destruct Hn as [-> | ->]; [apply le_0_n|apply notifier_sends_at_most_once].
Qed.

(** No notification when the status read back is not out-of-stock. *)
Lemma cycle_silent fs prev :
  res (load_state w fs) = Ok prev ->
  prev <> "out-of-stock" ->
  notification_fired (trace (cycle fs)) = false.
Proof.
  intros Hload Hprev.
  destruct (prober_quiet w (PRODUCT_URL (config w)) fs) as [_ Hp].
  assert (existsb is_smtp_call (trace (probe fs)) = false) as Hb
      by (apply (existsb_none is_browser_call); [now intros []|exact Hp]).
  destruct (prober_total w (PRODUCT_URL (config w)) fs) as [v Hv].
  unfold notification_fired. destruct v as [cur|].
  - rewrite (cycle_trace w fs cur prev Hv Hload).
    replace (String.eqb prev "out-of-stock") with false
      by (symmetry; now apply String.eqb_neq).
    cbn [andb]. rewrite !existsb_app, Hb.
    destruct (load_state_quiet w fs) as [_ Hl].
    destruct (save_state_trace w cur fs) as [Hs _].
    rewrite (existsb_none is_read_call is_smtp_call _ ltac:(now intros []) Hl).
    now rewrite (existsb_none is_write_call is_smtp_call _ ltac:(now intros []) Hs).
  - rewrite cycle_is_check_cycle, (check_cycle_skipped w fs None Hv I). exact Hb.
Qed.

(** X17. When the state file cannot be opened for writing, an invocation
    leaves no mark on it: the file is as it was before, whatever the
    probe found, so the next invocation starts from the old status. *)
Theorem refused_save_leaves_no_mark fs :
  is_ok (fileio w OpenWrite) = false ->
  file (cycle fs) = fs.
Proof.
  intros Hopen. rewrite cycle_file.
  destruct (res (probe fs)) as [[cur|]|e]; try reflexivity.
  destruct (nonempty cur); [|reflexivity].
  unfold saved. now rewrite Hopen.
Qed.

(** X18. The [/check] handler never raises, and its body is the JSON
    object whose only key, status, carries the success message; its
    calls and its effect on the state file are those of the one
    invocation it makes. *)
Theorem check_always_answers_success fs :
  res (check w fs) = Ok (JObject [("status", JString success_message)])
  /\ file (check w fs) = file (cycle fs)
  /\ trace (check w fs) = trace (cycle fs).
Proof.
  unfold check.
  rewrite (bind_Ok _ _ fs success_message)
    by (now rewrite cycle_is_check_cycle, check_cycle_res).
  cbn [res file trace ret jsonify]. now rewrite app_nil_r.
Qed.

End Invocation.

(** X19. No second alert for the same stock: after an invocation that
    found the product in stock and saved it, the next invocation does not
    fire, whatever its probe returns, as long as it can read the state
    file. *)
Theorem no_alert_twice (w1 w2 : World) fs :
  res (get_stock_status_playwright w1 (PRODUCT_URL (config w1)) fs)
  = Ok (Some "in-stock") ->
  writable w1 "in-stock" = true ->
  readable w2 = true ->
  notification_fired
    (trace (buttermilk_checker_v2_function w2
              (file (buttermilk_checker_v2_function w1 fs)))) = false.
Proof.
  intros Hprobe Hw Hr.
  assert (file (buttermilk_checker_v2_function w1 fs) = Some "in-stock") as ->.
  { rewrite cycle_file, Hprobe. cbn [nonempty]. unfold saved.
    unfold writable in Hw. now apply andb_true_iff in Hw as [-> ->]. }
  apply (cycle_silent w2 (Some "in-stock") "in-stock").
  - now rewrite load_state_res, Hr.
  - discriminate.
Qed.

(** ** The page the status is read from *)

Ltac target_step :=
  match goal with
  | |- quiet _ (extern _ _) =>
      apply quiet_extern; first [reflexivity | apply String.eqb_refl]
  | |- _ => py_step
  end.

Section Target.

Variable w : World.

Lemma enter_pincode_inv (pincode : string) fs :
  res (_enter_pincode w pincode fs) = Ok tt ->
  browser_do w (InputWaitVisible (modal_scope w)) = Ok tt
  /\ browser_do w (InputFill (modal_scope w) pincode) = Ok tt
  /\ browser_do w (InputPressEnter (modal_scope w)) = Ok tt
  /\ browser_do w WaitNetworkIdle = Ok tt
  /\ browser_do w WaitSettle = Ok tt.
Proof.
  unfold _enter_pincode. intros H.
  apply bind_res_inv in H as (n & Hn & H). cbn [count extern res file] in Hn, H.
  apply bind_res_inv in H as (sc & Hsc & H).
  assert (modal_scope w = sc) as <-.
  { unfold modal_scope. rewrite Hn. destruct (n >? 0)%Z; cbn [andb].
    - cbn [ask extern res] in Hsc. now rewrite Hsc.
    - cbn [ret res] in Hsc. now injection Hsc. }
  apply bind_res_inv in H as ([] & H1 & H).
  apply bind_res_inv in H as ([] & H2 & H).
  apply bind_res_inv in H as ([] & H3 & H).
  apply bind_res_inv in H as ([] & H4 & H).
  cbn [do_ extern res] in H1, H2, H3, H4, H. auto.
Qed.

Lemma navigate_inv (url : string) fs :
  res (navigate w url fs) = Ok tt ->
  browser_do w (Goto url) = Ok tt
  /\ browser_do w (InputWaitVisible (modal_scope w)) = Ok tt
  /\ browser_do w (InputFill (modal_scope w) (PINCODE (config w))) = Ok tt
  /\ browser_do w (InputPressEnter (modal_scope w)) = Ok tt
  /\ browser_do w WaitNetworkIdle = Ok tt
  /\ browser_do w WaitSettle = Ok tt.
Proof.
  unfold navigate. intros H.
  apply bind_res_inv in H as ([] & Hgo & H).
  apply bind_res_inv in H as ([] & _ & H).
  split; [exact Hgo|]. exact (enter_pincode_inv _ _ H).
Qed.

(** X20. The prober reports a status only for the page it was sent to and
    only after the pincode went in: whenever it returns in-stock or
    out-of-stock, the navigation to the URL succeeded, the pincode input
    became visible, was filled with the configured pincode and submitted
    with Enter, and both waits after it went through. *)
Theorem status_only_after_pincode (url : string) fs s :
  res (get_stock_status_playwright w url fs) = Ok (Some s) ->
  browser_do w (Goto url) = Ok tt
  /\ browser_do w (InputWaitVisible (modal_scope w)) = Ok tt
  /\ browser_do w (InputFill (modal_scope w) (PINCODE (config w))) = Ok tt
  /\ browser_do w (InputPressEnter (modal_scope w)) = Ok tt
  /\ browser_do w WaitNetworkIdle = Ok tt
  /\ browser_do w WaitSettle = Ok tt.
Proof.
  rewrite prober_formula. cbn [res]. intros H. injection H as H.
  destruct (_ && _); [|discriminate H].
  destruct (res (page_flow w url fs)) as [v|e] eqn:E; [|discriminate H].
  subst v. unfold page_flow in E.
  apply bind_res_inv in E as ([] & Hnav & _).
  exact (navigate_inv url fs Hnav).
Qed.

Lemma try_candidates_on_target (url pin : string) (cands : list string) :
  quiet (on_target url pin) (try_candidates w cands).
Proof.
  induction cands as [|txt rest IH]; simpl.
  - apply quiet_ret.
  - unfold count, do_. repeat target_step.
Qed.

Lemma page_flow_on_target (url : string) :
  quiet (on_target url (PINCODE (config w))) (page_flow w url).
Proof.
  pose proof (try_candidates_on_target url (PINCODE (config w))).
  unfold page_flow, navigate, _open_pincode_modal, _enter_pincode, classify,
    ask, count, do_.
  repeat target_step.
Qed.

(** X21. The prober stays on target: the only address it navigates to is
    the URL it was given, and the only text it types into the page is the
    configured pincode. *)
Theorem prober_stays_on_target (url : string) fs :
  (forall u, In (CBrowser (Goto u)) (trace (get_stock_status_playwright w url fs)) ->
             u = url)
  /\ (forall sc p,
        In (CBrowser (InputFill sc p)) (trace (get_stock_status_playwright w url fs)) ->
        p = PINCODE (config w)).
Proof.
  assert (forallb (on_target url (PINCODE (config w)))
            (trace (get_stock_status_playwright w url fs)) = true) as Hall.
  { rewrite prober_formula. cbn [trace].
    destruct (page_flow_on_target url fs) as [_ Hp].
    remember (trace (page_flow w url fs)) as tp.
    destruct (is_ok (browser_do w StartPlaywright)); [|reflexivity].
    destruct (is_ok (browser_do w Launch)); [|reflexivity].
    destruct (is_ok (browser_do w NewPage)); [|reflexivity].
    cbn [forallb on_target andb app]. rewrite !forallb_app, Hp.
    destruct (is_ok (res (page_flow w url fs))); reflexivity. }
  rewrite forallb_forall in Hall. split.
  - intros u Hin. apply Hall in Hin. now apply String.eqb_eq in Hin.
  - intros sc p Hin. apply Hall in Hin. now apply String.eqb_eq in Hin.
Qed.

End Target.

(** ** A second invocation *)

Lemma oblivious_ret {A} (a : A) : oblivious (ret a).
Proof. now split. Qed.

Lemma oblivious_extern {A} c (o : outcome A) : oblivious (extern c o).
Proof. now split. Qed.

Lemma oblivious_bind {A B} (m : M A) (k : A -> M B) :
  oblivious m -> (forall a, oblivious (k a)) -> oblivious (bind m k).
Proof.
  intros Hm Hk fs fs'. destruct (Hm fs fs') as [Hr Ht]. unfold bind.
  rewrite <- Hr, <- Ht. destruct (res (m fs)) as [a|e]; cbn [res trace].
  - destruct (Hk a (file (m fs)) (file (m fs'))) as [-> ->]. now split.
  - now split.
Qed.

Lemma oblivious_try_except {A} (m : M A) (h : exn -> M A) :
  oblivious m -> (forall e, oblivious (h e)) -> oblivious (try_except m h).
Proof.
  intros Hm Hh fs fs'. destruct (Hm fs fs') as [Hr Ht]. unfold try_except.
  rewrite <- Hr. destruct (res (m fs)) as [a|e] eqn:E; cbn [res trace].
  - rewrite <- Hr, E, Ht. now split.
  - rewrite <- Ht. destruct (Hh e (file (m fs)) (file (m fs'))) as [-> ->]. now split.
Qed.

Lemma oblivious_try_finally {A} (m : M A) (fin : M unit) :
  oblivious m -> oblivious fin -> oblivious (try_finally m fin).
Proof.
  intros Hm Hfin fs fs'. destruct (Hm fs fs') as [Hr Ht].
  destruct (Hfin (file (m fs)) (file (m fs'))) as [Hr' Ht'].
  unfold try_finally. cbn [res trace]. now rewrite Hr, Ht, Hr', Ht'.
Qed.

Lemma oblivious_with_ctx {A} (enter leave : M unit) (body : M A) :
  oblivious enter -> oblivious leave -> oblivious body ->
  oblivious (with_ctx enter leave body).
Proof.
  intros He Hl Hb. apply oblivious_bind; [exact He|intros _].
  now apply oblivious_try_finally.
Qed.

Ltac oblivious_step :=
  match goal with
  | |- forall _, _ => intro
  | |- oblivious (ret _) => apply oblivious_ret
  | |- oblivious (extern _ _) => apply oblivious_extern
  | |- oblivious (bind _ _) => apply oblivious_bind
  | |- oblivious (try_except _ _) => apply oblivious_try_except
  | |- oblivious (try_finally _ _) => apply oblivious_try_finally
  | |- oblivious (with_ctx _ _ _) => apply oblivious_with_ctx
  | |- oblivious (if ?b then _ else _) => destruct b
  | |- oblivious (match ?e with _ => _ end) => destruct e
  | |- _ => solve [auto]
  end.

Section SecondRun.

Variable w : World.

Lemma try_candidates_oblivious (cands : list string) :
  oblivious (try_candidates w cands).
Proof.
  induction cands as [|txt rest IH]; simpl.
  - apply oblivious_ret.
  - unfold count, do_. repeat oblivious_step.
Qed.

(** The prober does not look at the state file. *)
Lemma prober_oblivious (url : string) :
  oblivious (get_stock_status_playwright w url).
Proof.
  pose proof try_candidates_oblivious.
  unfold get_stock_status_playwright, debug_screenshot, page_flow, navigate,
    _open_pincode_modal, _enter_pincode, classify, ask, count, do_.
  repeat oblivious_step.
Qed.

(** X22. The state file settles after one invocation: a second invocation
    that gets the same answers from the browser and the file system leaves
    the file exactly as the first one left it, whatever it held before. *)
Theorem second_run_is_steady fs :
  file (buttermilk_checker_v2_function w
          (file (buttermilk_checker_v2_function w fs)))
  = file (buttermilk_checker_v2_function w fs).
Proof.
  rewrite (cycle_file w (file (buttermilk_checker_v2_function w fs))).
  destruct (prober_oblivious (PRODUCT_URL (config w))
              (file (buttermilk_checker_v2_function w fs)) fs) as [-> _].
  rewrite cycle_file.
  destruct (res (get_stock_status_playwright w (PRODUCT_URL (config w)) fs))
    as [[cur|]|e]; try reflexivity.
  destruct (nonempty cur); [|reflexivity].
  unfold saved. destruct (is_ok (fileio w OpenWrite)); reflexivity.
Qed.

End SecondRun.

(** ** Instances *)

(** X3 at a page whose triggers can be clicked but never show the
    heading. *)
Lemma open_modal_survives_clicks_witness :
  res (_open_pincode_modal stuck_trigger_world None) = Ok tt.
Proof.
  apply (open_modal_survives_clicks stuck_trigger_world None).
  - reflexivity.
  - intros txt _. reflexivity.
  - reflexivity.
  - reflexivity.
Defined.

(** X4 at a page with the one trigger "Change Pincode". *)
Lemma only_found_triggers_clicked_witness :
  browser_ask one_trigger_world HeadingVisible = Ok false
  /\ In "Change Pincode" candidates
  /\ exists n, browser_count one_trigger_world (CandidateCount "Change Pincode") = Ok n
               /\ (n > 0)%Z.
Proof.
  apply (only_found_triggers_clicked one_trigger_world None "Change Pincode").
  vm_compute. repeat (first [left; reflexivity | right]).
Defined.

(** X5 at a page with no trigger and the location button. *)
Lemma location_button_is_last_resort_witness :
  browser_ask location_world HeadingVisible = Ok false
  /\ (forall txt, In txt candidates -> trigger_fails location_world txt)
  /\ exists n, browser_count location_world LocationCount = Ok n /\ (n > 0)%Z.
Proof.
  apply (location_button_is_last_resort location_world None).
  vm_compute. repeat (first [left; reflexivity | right]).
Defined.

(** X9 at the page that offers the product. *)
Lemma in_stock_is_sound_witness :
  browser_ask buyable_world SoldOutVisible = Ok false
  /\ (exists n, browser_count buyable_world AddToCartCount = Ok n /\ (n > 0)%Z)
  /\ browser_ask buyable_world AddToCartVisible = Ok true
  /\ browser_ask buyable_world AddToCartEnabled = Ok true
  /\ browser_do buyable_world CloseBrowser = Ok tt
  /\ browser_do buyable_world StopPlaywright = Ok tt.
Proof.
  apply (in_stock_is_sound buyable_world (PRODUCT_URL default_config) None).
  vm_compute. reflexivity.
Defined.

(** X12 from a state file with white space around the label. *)
Lemma loaded_status_round_trips_witness :
  res (load_state buyable_world
         (file (save_state buyable_world "in-stock" None))) = Ok "in-stock".
Proof.
  apply (loaded_status_round_trips buyable_world (Some padded_label) None "in-stock").
  - vm_compute. reflexivity.
  - vm_compute. reflexivity.
  - vm_compute. reflexivity.
Defined.

(** X19: the product is in stock at two invocations in a row. *)
Lemma no_alert_twice_witness :
  notification_fired
    (trace (buttermilk_checker_v2_function buyable_world
              (file (buttermilk_checker_v2_function buyable_world
                       (Some "out-of-stock"))))) = false.
Proof.
  apply (no_alert_twice buyable_world buyable_world (Some "out-of-stock")).
  - vm_compute. reflexivity.
  - vm_compute. reflexivity.
  - vm_compute. reflexivity.
Defined.

(** X17 on a read-only file system, with the product in stock. *)
Lemma refused_save_leaves_no_mark_witness :
  file (buttermilk_checker_v2_function (with_fileio read_only_fs buyable_world)
          (Some "out-of-stock")) = Some "out-of-stock".
Proof.
  apply (refused_save_leaves_no_mark (with_fileio read_only_fs buyable_world)
           (Some "out-of-stock")).
  vm_compute. reflexivity.
Defined.

(** X20 at the page that offers the product. *)
Lemma status_only_after_pincode_witness :
  browser_do buyable_world (Goto (PRODUCT_URL default_config)) = Ok tt
  /\ browser_do buyable_world (InputWaitVisible (modal_scope buyable_world)) = Ok tt
  /\ browser_do buyable_world
       (InputFill (modal_scope buyable_world) (PINCODE (config buyable_world))) = Ok tt
  /\ browser_do buyable_world (InputPressEnter (modal_scope buyable_world)) = Ok tt
  /\ browser_do buyable_world WaitNetworkIdle = Ok tt
  /\ browser_do buyable_world WaitSettle = Ok tt.
Proof.
  apply (status_only_after_pincode buyable_world (PRODUCT_URL default_config) None
           "in-stock").
  vm_compute. reflexivity.
Defined.
